(** * flowcontrol: a transfer-rate monitor and limiter

    A shallow embedding of [go1/flowcontrol/flowcontrol.go] and
    [go1/flowcontrol/io.go].

    - [int64], [int] and [time.Duration] values are integers of [Z] with the
      two's-complement wrap-around of 64-bit arithmetic written out
      ([wrap64]); [int] is taken to be 64 bits wide.
    - [float64] values are the binary64 numbers of [PrimFloat]; the exact
      functions [math.Modf], [math.Floor], [math.Ceil] and the conversion to
      [int64] work on the exact rational value of a number ([real64]).
    - The mutex of a [Monitor] serialises the methods; a method is modelled
      as one step of a single caller, the monitor being passed explicitly.
      The methods with the suffix [_shared] are those of a caller that
      shares the monitor: each time it takes the lock, the calls that the
      other goroutines made meanwhile come first.
    - What the Go runtime supplies is a parameter of the development: the
      reading [T] of the wall clock ([time.Now().UnixNano()]) at which a
      method runs, the package variable [czero], [math.Exp], and
      [time.Sleep], which maps the time a caller falls asleep and the
      requested duration to the time it resumes. *)

From Stdlib Require Import ZArith Lia List Bool QArith Qround Lqa.
From Stdlib Require Import Floats.
Import ListNotations.

Open Scope Z_scope.

(** ** Machine integers *)

Definition minInt64 : Z := - 2 ^ 63.
Definition maxInt64 : Z := 2 ^ 63 - 1.

(** The value of an [int64] computation whose mathematical result is [z]. *)
Definition wrap64 (z : Z) : Z := (z + 2 ^ 63) mod 2 ^ 64 - 2 ^ 63.

(** ** time.Duration *)

Definition Millisecond : Z := 1000000.
Definition Second : Z := 1000000000.

(** [clockRate] is the resolution and precision of [clock()]. *)
Definition clockRate : Z := 20 * Millisecond.

(** ** float64 *)

(** [float64(z)] for an [int64] value [z]: conversion with rounding to
    nearest even. *)
Definition float64 (z : Z) : float :=
  if z =? minInt64 then (-9223372036854775808)%float
  else if z <? 0 then PrimFloat.opp (PrimFloat.of_uint63 (Uint63.of_Z (- z)))
  else PrimFloat.of_uint63 (Uint63.of_Z z).

(** [Duration.Seconds]: the duration as a floating point number of
    seconds. *)
Definition Seconds (d : Z) : float :=
  let sec := Z.quot d Second in
  let nsec := Z.rem d Second in
  (float64 sec + float64 nsec / 1e9)%float.

(** The exact value of a binary64 number. *)
Inductive real64 : Type :=
| RNaN : real64
| RInf (neg : bool) : real64
| RFin (q : Q) : real64.

Definition exact (x : float) : real64 :=
  match Prim2SF x with
  | S754_nan => RNaN
  | S754_infinity s => RInf s
  | S754_zero _ => RFin 0
  | S754_finite s m e =>
      let n := if s then Z.neg m else Z.pos m in
      if 0 <=? e then RFin (inject_Z (n * 2 ^ e))
      else RFin (Qmake n (Z.to_pos (2 ^ (- e))))
  end.

(** Rounding toward zero. *)
Definition Qtrunc (q : Q) : Z :=
  if Qle_bool 0 q then Qfloor q else Qceiling q.

(** [math.Floor], [math.Ceil]: exact, infinities and NaN are returned as
    they are. *)
Definition Floor (v : real64) : real64 :=
  match v with
  | RFin q => RFin (inject_Z (Qfloor q))
  | _ => v
  end.

Definition Ceil (v : real64) : real64 :=
  match v with
  | RFin q => RFin (inject_Z (Qceiling q))
  | _ => v
  end.

(** [math.Modf]: integer and fractional parts that sum to the argument, both
    with its sign; [Modf(±Inf) = ±Inf, NaN]. *)
Definition Modf (v : real64) : real64 * real64 :=
  match v with
  | RFin q => (RFin (inject_Z (Qtrunc q)), RFin (q - inject_Z (Qtrunc q)))
  | RInf s => (RInf s, RNaN)
  | RNaN => (RNaN, RNaN)
  end.

(** [v >= 0.5]. *)
Definition ge_half (v : real64) : bool :=
  match v with
  | RFin q => Qle_bool (1 # 2) q
  | RInf s => negb s
  | RNaN => false
  end.

(** [int64(v)]: truncation toward zero. Go leaves the result open when the
    value does not fit; it is the "integer indefinite" value of amd64
    here. *)
Definition int64_of (v : real64) : Z :=
  match v with
  | RFin q =>
      let z := Qtrunc q in
      if (minInt64 <=? z) && (z <=? maxInt64) then z else minInt64
  | _ => minInt64
  end.

(** [round] returns x rounded to the nearest int64 (non-negative values
    only). *)
Definition round (x : float) : Z :=
  let '(_, frac) := Modf (exact x) in
  if ge_half frac then int64_of (Ceil (exact x))
  else int64_of (Floor (exact x)).

(** [clockRound] returns d rounded to the nearest clockRate increment. *)
Definition clockRound (d : Z) : Z :=
  wrap64 (Z.quot (wrap64 (d + Z.shiftr clockRate 1)) clockRate * clockRate).

(** ** Monitor *)

Record Monitor : Type := mkMonitor {
  active : bool;   (* Flag indicating an active transfer *)
  start : Z;       (* Transfer start time (clock() value) *)
  bytes : Z;       (* Total number of bytes transferred *)
  samples : Z;     (* Total number of samples taken *)
  rSample : float; (* Most recent transfer rate sample (bytes per second) *)
  rEMA : float;    (* Exponential moving average of rSample *)
  rPeak : float;   (* Peak transfer rate (max of all rSamples) *)
  rWindow : float; (* rEMA window (seconds) *)
  sBytes : Z;      (* Number of bytes transferred since sLast *)
  sLast : Z;       (* Most recent sample time (stop time when inactive) *)
  sRate : Z        (* Sampling rate *)
}.

Definition set_active (m : Monitor) (b : bool) : Monitor :=
  mkMonitor b (start m) (bytes m) (samples m) (rSample m) (rEMA m) (rPeak m)
    (rWindow m) (sBytes m) (sLast m) (sRate m).

Definition set_rSample (m : Monitor) (r : float) : Monitor :=
  mkMonitor (active m) (start m) (bytes m) (samples m) r (rEMA m) (rPeak m)
    (rWindow m) (sBytes m) (sLast m) (sRate m).

Definition set_rEMA (m : Monitor) (r : float) : Monitor :=
  mkMonitor (active m) (start m) (bytes m) (samples m) (rSample m) r (rPeak m)
    (rWindow m) (sBytes m) (sLast m) (sRate m).

Definition set_rPeak (m : Monitor) (r : float) : Monitor :=
  mkMonitor (active m) (start m) (bytes m) (samples m) (rSample m) (rEMA m) r
    (rWindow m) (sBytes m) (sLast m) (sRate m).

Definition set_sBytes (m : Monitor) (n : Z) : Monitor :=
  mkMonitor (active m) (start m) (bytes m) (samples m) (rSample m) (rEMA m)
    (rPeak m) (rWindow m) n (sLast m) (sRate m).

(** Status represents the current Monitor status. All transfer rates are in
    bytes per second rounded to the nearest byte. [Start] is the
    [time.Time] value as nanoseconds since the Unix epoch. *)
Record Status : Type := mkStatus {
  Active : bool;
  Start : Z;
  Duration : Z;
  Bytes : Z;
  Samples : Z;
  InstRate : Z;
  CurRate : Z;
  AvgRate : Z;
  PeakRate : Z
}.

(** What a call that may wait produces: a value, or no value within the
    iterations it was given. *)
Inductive result (A : Type) : Type :=
| Ok (a : A)
| Timeout
| Panic.
Arguments Ok {A} a.
Arguments Timeout {A}.
Arguments Panic {A}.

Definition bind {A B : Type} (r : result A) (k : A -> result B) : result B :=
  match r with
  | Ok a => k a
  | Timeout => Timeout
  | Panic => Panic
  end.

(** ** Stream adapters (io.go): the types *)

(** [ErrLimit] is returned by the Writer when a non-blocking write is short
    due to the transfer rate limit; any other error comes from the
    underlying stream. *)
Inductive error : Type :=
| ErrLimit
| ErrIO (code : Z).

(** [io.Writer]: [io_Write u s] writes [s] to the stream [u] and returns the
    stream, the number of bytes written and the error, if any. *)
Class io_Writer (U : Type) : Type :=
  io_Write : U -> list Byte.byte -> U * (Z * option error).

(** [Writer] implements io.WriteCloser with a restriction on the rate of
    data transfer. *)
Record Writer (U : Type) : Type := mkWriter {
  Writer_Writer : U;        (* Data destination *)
  Writer_Monitor : Monitor; (* Flow control monitor *)
  Rate : Z;   (* Rate limit in bytes per second (unlimited when <= 0) *)
  Block : bool (* What to do when no new bytes can be written due to the limit *)
}.
Arguments mkWriter {U} _ _ _ _.
Arguments Writer_Writer {U} _.
Arguments Writer_Monitor {U} _.
Arguments Rate {U} _.
Arguments Block {U} _.

Definition len {A : Type} (p : list A) : Z := Z.of_nat (length p).

Section Flowcontrol.

(** [czero] is the process start time rounded down to the nearest
    clockRate increment. *)
Variable czero : Z.

(** [math.Exp]. *)
Variable Exp : float -> float.

(** [time.Sleep]: [Sleep T d] is the wall-clock time at which a caller
    that goes to sleep at time [T] for the duration [d] runs again. *)
Variable Sleep : Z -> Z -> Z.

(** [clock] returns a low resolution timestamp relative to the process
    start time; [T] is [time.Now().UnixNano()]. *)
Definition clock (T : Z) : Z :=
  wrap64 (wrap64 (Z.quot T clockRate * clockRate) - czero).

(** [clockToTime] converts a clock() timestamp to an absolute time. *)
Definition clockToTime (c : Z) : Z := wrap64 (czero + c).

(** [New] creates a new flow control monitor. *)
Definition New (sampleRate windowSize : Z) (T : Z) : Monitor :=
  let sampleRate := clockRound sampleRate in
  let sampleRate := if sampleRate <=? 0 then wrap64 (5 * clockRate) else sampleRate in
  let windowSize := if windowSize <=? 0 then wrap64 (1 * Second) else windowSize in
  let now := clock T in
  mkMonitor true now 0 0 0%float 0%float 0%float (Seconds windowSize) 0 now
    sampleRate.

(** [reset] clears the current sample state in preparation for the next
    sample. *)
Definition reset (m : Monitor) (sampleTime : Z) : Monitor :=
  mkMonitor (active m) (start m) (wrap64 (bytes m + sBytes m))
    (wrap64 (samples m + 1)) (rSample m) (rEMA m) (rPeak m) (rWindow m)
    0 sampleTime (sRate m).

(** [update] accumulates the transferred byte count for the current sample
    until clock() - m.sLast >= m.sRate. The monitor status is updated once
    the current sample is done. It returns the monitor and [now]. *)
Definition update (m : Monitor) (n : Z) (T : Z) : Monitor * Z :=
  if negb (active m) then (m, 0) (* m is frozen, time is irrelevant *)
  else
    let now := clock T in
    let m := set_sBytes m (wrap64 (sBytes m + n)) in
    let sTime := wrap64 (now - sLast m) in
    if sRate m <=? sTime then
      let t := Seconds sTime in
      let m := set_rSample m (float64 (sBytes m) / t)%float in
      let m := if (rPeak m <? rSample m)%float
               then set_rPeak m (rSample m) else m in
      let m :=
        if 0 <? samples m then
          let w := Exp (- t / rWindow m)%float in
          set_rEMA m (rSample m + w * (rEMA m - rSample m))%float
        else set_rEMA m (rSample m) in
      (reset m now, now)
    else (m, now).

(** [Update] records the transfer of n bytes and returns n. *)
Definition Update (m : Monitor) (n : Z) (T : Z) : Monitor * Z :=
  (fst (update m n T), n).

(** [Done] marks the transfer as finished and prevents any further updates
    or limiting. It returns the total number of bytes transferred. *)
Definition Done (m : Monitor) (T : Z) : Monitor * Z :=
  let '(m, now) := update m 0 T in
  let m := if 0 <? sBytes m then reset m now else m in
  let m := set_active m false in
  (m, bytes m).

(** [Status] returns current transfer status information. *)
Definition Monitor_Status (m : Monitor) (T : Z) : Monitor * Status :=
  let m := fst (update m 0 T) in
  let Duration := wrap64 (sLast m - start m) in
  let InstRate := if active m then round (rSample m) else 0 in
  let CurRate := if active m then round (rEMA m) else 0 in
  let AvgRate :=
    if 0 <? Duration
    then round (float64 (bytes m) / Seconds Duration)%float else 0 in
  (m, mkStatus (active m) (clockToTime (start m)) Duration (bytes m)
        (samples m) InstRate CurRate AvgRate (round (rPeak m))).

(** [minWait], the shortest sleep of [waitNextSample]. *)
Definition minWait : Z := 5 * Millisecond.

(** The loop of [waitNextSample]: sleep until the last sample time changes
    (ideally, just one iteration). The lock is released during the sleep
    and taken again before [update]. *)
Fixpoint waitLoop (fuel : nat) (current : Z) (m : Monitor) (now T : Z)
  : result (Monitor * Z * Z) :=
  if (sLast m =? current) && active m then
    match fuel with
    | O => Timeout
    | S fuel =>
        let d := wrap64 (wrap64 (current + sRate m) - now) in
        let d := if d <? minWait then minWait else d in
        let T := Sleep T d in
        let '(m, now) := update m 0 T in
        waitLoop fuel current m now T
    end
  else Ok (m, now, T).

(** [waitNextSample] sleeps for the remainder of the current sample. It
    returns the monitor, [now] and the time at which it returns. *)
Definition waitNextSample (fuel : nat) (m : Monitor) (now T : Z)
  : result (Monitor * Z * Z) :=
  let current := sLast m in
  waitLoop fuel current m now T.

(** The loop of a blocking [Limit]: wait until m.sBytes < limit. *)
Fixpoint limitLoop (fuel : nat) (limit : Z) (m : Monitor) (now T : Z)
  : result (Monitor * Z * Z) :=
  if (limit <=? sBytes m) && active m then
    match fuel with
    | O => Timeout
    | S fuel' =>
        bind (waitNextSample fuel m now T)
             (fun '(m, now, T) => limitLoop fuel' limit m now T)
    end
  else Ok (m, now, T).

(** The maximum number of bytes that can be sent in one sample. *)
Definition sampleLimit (m : Monitor) (rate : Z) : Z :=
  let limit := round (float64 rate * Seconds (sRate m))%float in
  if limit <=? 0 then 1 else limit.

(** [Limit] restricts the instantaneous (per-sample) data flow to rate
    bytes per second. It returns the monitor, the number of bytes that may
    be transferred immediately, and the time at which it returns. *)
Definition Limit (fuel : nat) (m : Monitor) (want rate : Z) (block : bool)
    (T : Z) : result (Monitor * Z * Z) :=
  if (want <? 1) || (rate <? 1) then Ok (m, want, T)
  else
    let limit := sampleLimit m rate in
    let '(m, now) := update m 0 T in
    bind (if block then limitLoop fuel limit m now T else Ok (m, now, T))
      (fun '(m, _, T) =>
         let limit := wrap64 (limit - sBytes m) in
         let limit :=
           if (want <? limit) || negb (active m) then want else limit in
         let limit := if limit <? 0 then 0 else limit in
         Ok (m, limit, T)).

(** ** Stream adapters (io.go): the methods *)

(** [NewWriter] restricts all Write operations on w to rate bytes per
    second. *)
Definition NewWriter {U : Type} (u : U) (rate : Z) (T : Z) : Writer U :=
  mkWriter u (New 0 0 T) rate true.

(** The loop of [Writer.Write]; [n] is the number of bytes written so far.
    A slice expression out of range panics. *)
Fixpoint writeLoop {U : Type} `{io_Writer U} (fuel : nat) (w : Writer U)
    (p : list Byte.byte) (n : Z) (T : Z)
  : result (Writer U * (Z * option error) * Z) :=
  match p with
  | [] => Ok (w, (n, None), T)
  | _ :: _ =>
      match fuel with
      | O => Timeout
      | S fuel' =>
          bind (Limit fuel (Writer_Monitor w) (len p) (Rate w) (Block w) T)
            (fun '(m, lim, T) =>
               if (lim <? 0) || (len p <? lim) then Panic
               else
                 let s := firstn (Z.to_nat lim) p in
                 match s with
                 | [] =>
                     Ok (mkWriter (Writer_Writer w) m (Rate w) (Block w),
                         (n, Some ErrLimit), T)
                 | _ :: _ =>
                     let '(u, (c, err)) := io_Write (Writer_Writer w) s in
                     let m := fst (Update m c T) in
                     let w := mkWriter u m (Rate w) (Block w) in
                     if (c <? 0) || (len p <? c) then Panic
                     else
                       let p := skipn (Z.to_nat c) p in
                       let n := wrap64 (n + c) in
                       match err with
                       | Some e => Ok (w, (n, Some e), T)
                       | None => writeLoop fuel' w p n T
                       end
                 end)
      end
  end.

(** [Writer.Write] writes len(p) bytes from p to the underlying data stream
    without exceeding the current transfer rate limit. It returns
    (n, ErrLimit) if w.Block == false and no additional bytes can be written
    at this time. Otherwise, it continues writing at w.Rate bytes per second
    until all of p is written or an error is encountered. It returns the
    writer, (n, err) and the time at which it returns. *)
Definition Write {U : Type} `{io_Writer U} (fuel : nat) (w : Writer U)
    (p : list Byte.byte) (T : Z)
  : result (Writer U * (Z * option error) * Z) :=
  writeLoop fuel w p 0 T.

End Flowcontrol.

(** A stream that keeps what is written to it and never fails (a
    [bytes.Buffer]). *)
#[export] Instance Buffer_Writer : io_Writer (list Byte.byte) :=
  fun u s => (u ++ s, (len s, None)).

(** ** Stream adapters (io.go): Reader and Close *)

(** [io.Reader]: [io_Read u k] reads up to [k] bytes from the stream [u] and
    returns the stream, the bytes read (the [p[:n]] of [Read(p)]) and the
    error, if any. *)
Class io_Reader (U : Type) : Type :=
  io_Read : U -> Z -> U * (list Byte.byte * option error).

(** The type assertion [u.(io.Closer)]: [None] when the stream does not
    implement io.Closer, else the closed stream and the error of [Close]. *)
Class io_Closer (U : Type) : Type :=
  io_Close : U -> option (U * option error).

(** [Reader] implements io.ReadCloser with a restriction on the rate of
    data transfer. *)
Record Reader (U : Type) : Type := mkReader {
  Reader_Reader : U;        (* Data source *)
  Reader_Monitor : Monitor; (* Flow control monitor *)
  Reader_Rate : Z;   (* Rate limit in bytes per second (unlimited when <= 0) *)
  Reader_Block : bool (* What to do when no new bytes can be read due to the limit *)
}.
Arguments mkReader {U} _ _ _ _.
Arguments Reader_Reader {U} _.
Arguments Reader_Monitor {U} _.
Arguments Reader_Rate {U} _.
Arguments Reader_Block {U} _.

Section Adapters.

Variable czero : Z.
Variable Exp : float -> float.
Variable Sleep : Z -> Z -> Z.

(** [IO] is a convenience method intended to wrap io.Reader and io.Writer
    method execution. It calls m.Update(n) and then returns (n, err)
    unmodified. *)
Definition IO (m : Monitor) (n : Z) (err : option error) (T : Z)
  : Monitor * (Z * option error) :=
  (fst (Update czero Exp m n T), (n, err)).

(** [NewReader] restricts all Read operations on r to rate bytes per
    second. *)
Definition NewReader {U : Type} (u : U) (rate : Z) (T : Z) : Reader U :=
  mkReader u (New czero 0 0 T) rate true.

(** [Reader.Read] reads up to len(p) bytes into p without exceeding the
    current transfer rate limit. It returns (0, nil) immediately if
    r.Block == false and no new bytes can be read at this time. [lenp] is
    len(p), taken for the capacity of p as well; the bytes returned are the
    [p[:n]] the caller finds. *)
Definition Read {U : Type} `{io_Reader U} (fuel : nat) (r : Reader U)
    (lenp : Z) (T : Z)
  : result (Reader U * (list Byte.byte * option error) * Z) :=
  bind (Limit czero Exp Sleep fuel (Reader_Monitor r) lenp (Reader_Rate r)
          (Reader_Block r) T)
    (fun '(m, lim, T) =>
       if (lim <? 0) || (lenp <? lim) then Panic
       else if 0 <? lim then
         let '(u, (data, err)) := io_Read (Reader_Reader r) lim in
         let '(m, (_, err)) := IO m (len data) err T in
         Ok (mkReader u m (Reader_Rate r) (Reader_Block r), (data, err), T)
       else
         Ok (mkReader (Reader_Reader r) m (Reader_Rate r) (Reader_Block r),
             ([], None), T)).

(** [Reader.Close] closes the underlying reader if it implements the
    io.Closer interface. *)
Definition Reader_Close {U : Type} `{io_Closer U} (r : Reader U) (T : Z)
  : Reader U * option error :=
  let m := fst (Done czero Exp (Reader_Monitor r) T) in
  match io_Close (Reader_Reader r) with
  | Some (u, err) => (mkReader u m (Reader_Rate r) (Reader_Block r), err)
  | None => (mkReader (Reader_Reader r) m (Reader_Rate r) (Reader_Block r), None)
  end.

(** [Writer.Close] closes the underlying writer if it implements the
    io.Closer interface. *)
Definition Writer_Close {U : Type} `{io_Closer U} (w : Writer U) (T : Z)
  : Writer U * option error :=
  let m := fst (Done czero Exp (Writer_Monitor w) T) in
  match io_Close (Writer_Writer w) with
  | Some (u, err) => (mkWriter u m (Rate w) (Block w), err)
  | None => (mkWriter (Writer_Writer w) m (Rate w) (Block w), None)
  end.

(** Consecutive non-blocking [Read] calls, each given as the time of the
    call and the length of the buffer: the numbers of bytes read. *)
Fixpoint reads {U : Type} `{io_Reader U} (r : Reader U) (calls : list (Z * Z))
  : list Z :=
  match calls with
  | [] => []
  | (T, lenp) :: calls =>
      match Read 0 r lenp T with
      | Ok (r', (data, _), _) => len data :: reads r' calls
      | _ => []
      end
  end.

End Adapters.

(** A stream of bytes still to be read; it hands out what is asked for, or
    what is left, and reports the end of the stream once it is empty (a
    [bytes.Reader]). *)
Definition EOF : error := ErrIO 0.

#[export] Instance Buffer_Reader : io_Reader (list Byte.byte) :=
  fun u k =>
    match u with
    | [] => ([], ([], Some EOF))
    | _ :: _ => (skipn (Z.to_nat k) u, (firstn (Z.to_nat k) u, None))
    end.

(** A stream without a [Close] method. *)
#[export] Instance Buffer_Closer : io_Closer (list Byte.byte) :=
  fun _ => None.

(** ** Sequences of calls *)

(** A method call on a monitor; a [Limit] of a sequence does not block. *)
Inductive call : Type :=
| CUpdate (n : Z)
| CStatus
| CLimit (want rate : Z)
| CDone.

Section Runs.

Variable czero : Z.
Variable Exp : float -> float.

(** The monitor after a call made when the wall clock reads [T]. *)
Definition step (m : Monitor) (c : Z * call) : Monitor :=
  let '(T, c) := c in
  match c with
  | CUpdate n => fst (Update czero Exp m n T)
  | CStatus => fst (Monitor_Status czero Exp m T)
  | CLimit want rate =>
      match Limit czero Exp (fun T _ => T) 0 m want rate false T with
      | Ok (m', _, _) => m'
      | _ => m
      end
  | CDone => fst (Done czero Exp m T)
  end.

Definition run (m : Monitor) (tr : list (Z * call)) : Monitor :=
  fold_left step tr m.

(** The bytes passed to [Update] while the monitor still takes updates;
    [act] tells whether it does at the start of the sequence. *)
Fixpoint transferred (act : bool) (tr : list (Z * call)) : Z :=
  match tr with
  | [] => 0
  | (_, CUpdate n) :: tr => (if act then n else 0) + transferred act tr
  | (_, CDone) :: tr => transferred false tr
  | _ :: tr => transferred act tr
  end.

(** Whether a monitor that takes updates ([act]) still does after the
    calls. *)
Definition still_active (act : bool) (tr : list (Z * call)) : bool :=
  act && forallb (fun c => match snd c with CDone => false | _ => true end) tr.

Definition nonneg_call (c : Z * call) : Prop :=
  match snd c with
  | CUpdate n => 0 <= n
  | _ => True
  end.

(** Whether a call reaches [update], and whether that [update] finds the
    sample done. *)
Definition calls_update (c : call) : bool :=
  match c with
  | CLimit want rate => negb ((want <? 1) || (rate <? 1))
  | _ => true
  end.

Definition sampleDone (m : Monitor) (T : Z) : bool :=
  active m && (sRate m <=? wrap64 (clock czero T - sLast m)).

(** The rate samples computed along a sequence of calls, latest last. *)
Fixpoint instRates (m : Monitor) (tr : list (Z * call)) : list float :=
  match tr with
  | [] => []
  | c :: tr' =>
      let m' := step m c in
      (if calls_update (snd c) && sampleDone m (fst c) then [rSample m'] else [])
        ++ instRates m' tr'
  end.

(** Consecutive non-blocking [Limit] calls at a fixed rate, each given as
    the time of the call and the number of bytes wanted: the allowances
    returned. *)
Fixpoint allowances (m : Monitor) (rate : Z) (calls : list (Z * Z)) : list Z :=
  match calls with
  | [] => []
  | (T, want) :: calls =>
      match Limit czero Exp (fun T _ => T) 0 m want rate false T with
      | Ok (m', n, _) => n :: allowances m' rate calls
      | _ => []
      end
  end.

(** The same calls when every allowance is transferred and reported to
    [Update] before the next call, as [Reader.Read] and [Writer.Write] do. *)
Fixpoint transfers (m : Monitor) (rate : Z) (calls : list (Z * Z)) : list Z :=
  match calls with
  | [] => []
  | (T, want) :: calls =>
      match Limit czero Exp (fun T _ => T) 0 m want rate false T with
      | Ok (m', n, T') => n :: transfers (fst (Update czero Exp m' n T')) rate calls
      | _ => []
      end
  end.

Definition total (l : list Z) : Z := fold_right Z.add 0 l.

(** The calls ask for a number of bytes and none of them finds the sample
    of [m] done: they fall within one sampling period. *)
Definition within_period (m : Monitor) (calls : list (Z * Z)) : Prop :=
  Forall (fun c => 0 <= snd c /\ sampleDone m (fst c) = false) calls.

(** The rollover of the specification, with [t] the seconds since the last
    boundary: the pending bytes become a rate sample that enters the peak
    and the moving average, then the totals. *)
Definition rollover (m : Monitor) (now : Z) : Monitor :=
  let t := Seconds (wrap64 (now - sLast m)) in
  let inst := (float64 (sBytes m) / t)%float in
  let peak := if (rPeak m <? inst)%float then inst else rPeak m in
  let ema :=
    if 0 <? samples m
    then (inst + Exp (- t / rWindow m) * (rEMA m - inst))%float
    else inst in
  mkMonitor (active m) (start m) (wrap64 (bytes m + sBytes m))
    (wrap64 (samples m + 1)) inst ema peak (rWindow m) 0 now (sRate m).

(** [Done] as the specification words it: pending bytes force one last
    rollover, then the monitor is marked inactive. *)
Definition Done_rollover (m : Monitor) (T : Z) : Monitor :=
  set_active (rollover m (clock czero T)) false.

(** ** Invariants *)

(** The totals and the bytes of the sample in progress add up to [acc],
    nothing is pending once the transfer is finished. *)
Definition counted (m : Monitor) (acc : Z) : Prop :=
  0 <= bytes m /\ 0 <= sBytes m /\ bytes m + sBytes m = acc /\
  (active m = false -> sBytes m = 0).

(** [rPeak] is one of [p0] (its first value) and the samples [past], and
    none of them is larger. *)
Definition peak_of (p0 : float) (past : list float) (m : Monitor) : Prop :=
  In (rPeak m) (p0 :: past) /\
  forall r, In r (p0 :: past) -> (rPeak m <? r)%float = false.

(** A monitor as [New] and the methods leave it, seen at the time [T]: the
    sampling rate and the last sample time are multiples of [clockRate], the
    last sample time is not in the future, no negative count is pending. *)
Definition ready (m : Monitor) (T : Z) : Prop :=
  czero <= T <= maxInt64 /\
  0 < sRate m /\ sRate m mod clockRate = 0 /\
  sLast m mod clockRate = 0 /\ 0 <= sLast m <= clock czero T /\
  0 <= sBytes m <= maxInt64.

End Runs.


(** ** A monitor shared between goroutines *)

(** Every method takes the lock of the monitor ([m.mu.Lock()]) and gives it
    back when it returns; [waitNextSample] also gives it back for the time
    of its sleep. A caller that takes the lock finds the monitor as the
    other goroutines have left it. *)

Section Shared.

Variable czero : Z.
Variable Exp : float -> float.
Variable Sleep : Z -> Z -> Z.

(** [Others T T'] are the calls that the other goroutines make on the
    monitor, each with its time, while the caller is without the lock from
    [T] to [T']. A [Limit] of theirs that blocks changes the monitor by its
    calls of [update(0)], as [Status] calls do. *)
Variable Others : Z -> Z -> list (Z * call).

(** [m.mu.Lock()] at the time [T'] by a caller without the lock since [T]. *)
Definition Lock (m : Monitor) (T T' : Z) : Monitor :=
  run czero Exp m (Others T T').

(** The loop of [waitNextSample] on a shared monitor. *)
Fixpoint waitLoop_shared (fuel : nat) (current : Z) (m : Monitor) (now T : Z)
  : result (Monitor * Z * Z) :=
  if (sLast m =? current) && active m then
    match fuel with
    | O => Timeout
    | S fuel =>
        let d := wrap64 (wrap64 (current + sRate m) - now) in
        (* m.mu.Unlock() *)
        let d := if d <? minWait then minWait else d in
        let T' := Sleep T d in
        let m := Lock m T T' in
        let '(m, now) := update czero Exp m 0 T' in
        waitLoop_shared fuel current m now T'
    end
  else Ok (m, now, T).

Definition waitNextSample_shared (fuel : nat) (m : Monitor) (now T : Z)
  : result (Monitor * Z * Z) :=
  let current := sLast m in
  waitLoop_shared fuel current m now T.

(** The loop of a blocking [Limit] on a shared monitor. *)
Fixpoint limitLoop_shared (fuel : nat) (limit : Z) (m : Monitor) (now T : Z)
  : result (Monitor * Z * Z) :=
  if (limit <=? sBytes m) && active m then
    match fuel with
    | O => Timeout
    | S fuel' =>
        bind (waitNextSample_shared fuel m now T)
             (fun '(m, now, T) => limitLoop_shared fuel' limit m now T)
    end
  else Ok (m, now, T).

(** [Limit] on a shared monitor. *)
Definition Limit_shared (fuel : nat) (m : Monitor) (want rate : Z)
    (block : bool) (T : Z) : result (Monitor * Z * Z) :=
  if (want <? 1) || (rate <? 1) then Ok (m, want, T)
  else
    let m := Lock m T T in
    let limit := sampleLimit m rate in
    let '(m, now) := update czero Exp m 0 T in
    bind (if block then limitLoop_shared fuel limit m now T else Ok (m, now, T))
      (fun '(m, _, T) =>
         let limit := wrap64 (limit - sBytes m) in
         let limit :=
           if (want <? limit) || negb (active m) then want else limit in
         (* m.mu.Unlock() *)
         let limit := if limit <? 0 then 0 else limit in
         Ok (m, limit, T)).

(** [Update] on a shared monitor. *)
Definition Update_shared (m : Monitor) (n : Z) (T : Z) : Monitor * Z :=
  let m := Lock m T T in
  (fst (update czero Exp m n T), n).

(** The loop of [Writer.Write] when the monitor of the writer is shared. *)
Fixpoint writeLoop_shared {U : Type} `{io_Writer U} (fuel : nat) (w : Writer U)
    (p : list Byte.byte) (n : Z) (T : Z)
  : result (Writer U * (Z * option error) * Z) :=
  match p with
  | [] => Ok (w, (n, None), T)
  | _ :: _ =>
      match fuel with
      | O => Timeout
      | S fuel' =>
          bind (Limit_shared fuel (Writer_Monitor w) (len p) (Rate w) (Block w) T)
            (fun '(m, lim, T) =>
               if (lim <? 0) || (len p <? lim) then Panic
               else
                 let s := firstn (Z.to_nat lim) p in
                 match s with
                 | [] =>
                     Ok (mkWriter (Writer_Writer w) m (Rate w) (Block w),
                         (n, Some ErrLimit), T)
                 | _ :: _ =>
                     let '(u, (c, err)) := io_Write (Writer_Writer w) s in
                     let m := fst (Update_shared m c T) in
                     let w := mkWriter u m (Rate w) (Block w) in
                     if (c <? 0) || (len p <? c) then Panic
                     else
                       let p := skipn (Z.to_nat c) p in
                       let n := wrap64 (n + c) in
                       match err with
                       | Some e => Ok (w, (n, Some e), T)
                       | None => writeLoop_shared fuel' w p n T
                       end
                 end)
      end
  end.

(** [Writer.Write] when the monitor of the writer is shared. *)
Definition Write_shared {U : Type} `{io_Writer U} (fuel : nat) (w : Writer U)
    (p : list Byte.byte) (T : Z)
  : result (Writer U * (Z * option error) * Z) :=
  writeLoop_shared fuel w p 0 T.

End Shared.

(** The calls [tr] are made in the order of their times, between [T] and
    [T']. *)
Fixpoint scheduled (T T' : Z) (tr : list (Z * call)) : Prop :=
  match tr with
  | [] => True
  | c :: tr => T <= fst c <= T' /\ scheduled (fst c) T' tr
  end.

(** A call that transfers no bytes: the other goroutines read the status,
    ask for an allowance or end the transfer. *)
Definition quiet (c : Z * call) : Prop :=
  match snd c with
  | CUpdate n => n = 0
  | _ => True
  end.

(** What quiet calls make of a monitor [m]: as long as the transfer goes
    on, the sample in progress is the one of [m], with the bytes of [m], or
    a later one with no bytes. *)
Definition passed (m m' : Monitor) : Prop :=
  sRate m' = sRate m /\ sBytes m' <= sBytes m /\
  (active m' = true ->
   active m = true /\
   (sLast m' = sLast m /\ sBytes m' = sBytes m \/
    sLast m + sRate m <= sLast m' /\ sBytes m' = 0)).

(** No other goroutine uses the monitor. *)
Definition nobody (T T' : Z) : list (Z * call) := [].

(** ** Scenarios *)

(** The exponential series evaluated in binary64, to run a scenario that
    reaches [math.Exp]. *)
Definition exp_series (x : float) : float :=
  (fix horner (n : nat) (k : Z) (acc : float) : float :=
     match n with
     | O => acc
     | S n' => horner n' (k - 1) (1 + x * acc / float64 k)%float
     end) 30%nat 30 1%float.

(** A sleep that ends exactly when asked. *)
Definition sleep_exact (T d : Z) : Z := T + d.

(** Another goroutine ends the transfer with [Done], at the time at which a
    caller that sleeps runs again. *)
Definition ends_transfer (T T' : Z) : list (Z * call) :=
  if T <? T' then [(T', CDone)] else [].

(** Scenario A: period 100 ms, window 1 s; 1000 bytes over the first
    period, 500 bytes over the second. *)
Definition scenarioA0 : Monitor := New 0 (100 * Millisecond) (1 * Second) 0.

Definition scenarioA1 (Exp : float -> float) : Monitor :=
  fst (Update 0 Exp scenarioA0 1000 (100 * Millisecond)).

Definition scenarioA2 (Exp : float -> float) : Monitor :=
  fst (Update 0 Exp (scenarioA1 Exp) 500 (200 * Millisecond)).

(** A monitor with 1000 bytes pending in its first sample. *)
Definition pending1000 : Monitor :=
  fst (Update 0 exp_series scenarioA0 1000 0).

(** The status at the end of each period. *)
Definition scenarioA1_Status (Exp : float -> float) : Status :=
  snd (Monitor_Status 0 Exp (scenarioA1 Exp) (100 * Millisecond)).

Definition scenarioA2_Status (Exp : float -> float) : Status :=
  snd (Monitor_Status 0 Exp (scenarioA2 Exp) (200 * Millisecond)).

(** * Properties *)

(** ** Machine arithmetic *)

Lemma wrap64_id (z : Z) : minInt64 <= z <= maxInt64 -> wrap64 z = z.
Proof.
  unfold wrap64, minInt64, maxInt64. intros H.
  rewrite Z.mod_small; lia.
Qed.

Lemma wrap64_range (z : Z) : minInt64 <= wrap64 z <= maxInt64.
Proof.
  unfold wrap64, minInt64, maxInt64.
  pose proof (Z.mod_pos_bound (z + 2 ^ 63) (2 ^ 64) ltac:(lia)). lia.
Qed.

Lemma int64_of_range (v : real64) : minInt64 <= int64_of v <= maxInt64.
Proof.
  unfold int64_of. destruct v as [| s | q]; try (unfold minInt64, maxInt64; lia).
  destruct (minInt64 <=? Qtrunc q) eqn:E1; destruct (Qtrunc q <=? maxInt64) eqn:E2;
    cbn [andb]; unfold minInt64, maxInt64 in *; lia.
Qed.

Lemma round_range (x : float) : minInt64 <= round x <= maxInt64.
Proof.
  unfold round. destruct (Modf (exact x)) as [i frac].
  destruct (ge_half frac); apply int64_of_range.
Qed.

(** The budget of a sample is a positive [int64]. *)
Lemma sampleLimit_range (m : Monitor) (rate : Z) :
  1 <= sampleLimit m rate <= maxInt64.
Proof.
  unfold sampleLimit.
  pose proof (round_range (float64 rate * Seconds (sRate m))%float) as R.
  destruct (round _ <=? 0) eqn:E; unfold maxInt64 in *; lia.
Qed.

(** ** Rounding *)

Lemma Qfloor_unique (q : Q) (z : Z) :
  (inject_Z z <= q)%Q -> (q < inject_Z (z + 1))%Q -> Qfloor q = z.
Proof.
  intros H1 H2.
  pose proof (Qfloor_le q) as F1. pose proof (Qlt_floor q) as F2.
  assert (A : (inject_Z z < inject_Z (Qfloor q + 1))%Q) by (eapply Qle_lt_trans; eauto).
  assert (B : (inject_Z (Qfloor q) < inject_Z (z + 1))%Q) by (eapply Qle_lt_trans; eauto).
  rewrite <- Zlt_Qlt in A, B. lia.
Qed.

Lemma Qceiling_unique (q : Q) (z : Z) :
  (inject_Z (z - 1) < q)%Q -> (q <= inject_Z z)%Q -> Qceiling q = z.
Proof.
  intros H1 H2.
  pose proof (Qle_ceiling q) as F1. pose proof (Qceiling_lt q) as F2.
  assert (A : (inject_Z (z - 1) < inject_Z (Qceiling q))%Q) by (eapply Qlt_le_trans; eauto).
  assert (B : (inject_Z (Qceiling q - 1) < inject_Z z)%Q) by (eapply Qlt_le_trans; eauto).
  rewrite <- Zlt_Qlt in A, B. lia.
Qed.

Lemma half_up_floor (q : Q) :
  (q - inject_Z (Qfloor q) < 1 # 2)%Q -> Qfloor q = Qfloor (q + (1 # 2)).
Proof.
  intros H. symmetry. apply Qfloor_unique.
  - pose proof (Qfloor_le q). lra.
  - rewrite inject_Z_plus. change (inject_Z 1) with 1%Q. lra.
Qed.

Lemma half_up_ceiling (q : Q) :
  (1 # 2 <= q - inject_Z (Qfloor q))%Q -> Qceiling q = Qfloor (q + (1 # 2)).
Proof.
  intros H.
  pose proof (Qfloor_le q) as F1. pose proof (Qlt_floor q) as F2.
  rewrite inject_Z_plus in F2. change (inject_Z 1) with 1%Q in F2.
  assert (C : Qceiling q = Qfloor q + 1).
  { apply Qceiling_unique.
    - replace (Qfloor q + 1 - 1) with (Qfloor q) by lia. lra.
    - rewrite inject_Z_plus. change (inject_Z 1) with 1%Q. lra. }
  rewrite C. symmetry. apply Qfloor_unique.
  - rewrite inject_Z_plus. change (inject_Z 1) with 1%Q. lra.
  - rewrite !inject_Z_plus. change (inject_Z 1) with 1%Q. lra.
Qed.

Lemma Qtrunc_Z (z : Z) : Qtrunc (inject_Z z) = z.
Proof.
  unfold Qtrunc. destruct (Qle_bool 0 (inject_Z z)); [apply Qfloor_Z | apply Qceiling_Z].
Qed.

(** On a non-negative number [round] is round-half-up. *)
Lemma round_half_up (x : float) (q : Q) :
  exact x = RFin q -> (0 <= q)%Q -> Qfloor (q + (1 # 2)) <= maxInt64 ->
  round x = Qfloor (q + (1 # 2)).
Proof.
  intros E Hq Hmax. unfold round. rewrite E. cbn [Modf ge_half Ceil Floor int64_of].
  assert (T : Qtrunc q = Qfloor q).
  { unfold Qtrunc. apply Qle_bool_iff in Hq. rewrite Hq. reflexivity. }
  rewrite T, !Qtrunc_Z.
  assert (P : 0 <= Qfloor (q + (1 # 2))).
  { change 0 with (Qfloor 0). apply Qfloor_resp_le. lra. }
  destruct (Qle_bool (1 # 2) (q - inject_Z (Qfloor q))) eqn:G.
  - apply Qle_bool_iff in G. rewrite (half_up_ceiling q G).
    destruct (minInt64 <=? _) eqn:E1; destruct (_ <=? maxInt64) eqn:E2;
      cbn [andb]; unfold minInt64 in *; lia.
  - assert (G' : (q - inject_Z (Qfloor q) < 1 # 2)%Q).
    { apply Qnot_le_lt. intros C. apply Qle_bool_iff in C. congruence. }
    rewrite (half_up_floor q G').
    destruct (minInt64 <=? _) eqn:E1; destruct (_ <=? maxInt64) eqn:E2;
      cbn [andb]; unfold minInt64 in *; lia.
Qed.

(** ** The order of binary64 *)

Lemma SFltb_irrefl (x : spec_float) : SFltb x x = false.
Proof.
  unfold SFltb, SFcompare. destruct x as [s | s | | s m e]; try reflexivity.
  - destruct s; reflexivity.
  - change (Pos.compare_cont Eq m m) with (Pos.compare m m).
    rewrite Z.compare_refl, Pos.compare_refl. destruct s; reflexivity.
Qed.

Ltac cmp_cases :=
  repeat match goal with
  | H : context [Z.compare ?a ?b] |- _ => destruct (Z.compare_spec a b)
  | |- context [Z.compare ?a ?b] => destruct (Z.compare_spec a b)
  | H : context [Pos.compare ?a ?b] |- _ => destruct (Pos.compare_spec a b)
  | |- context [Pos.compare ?a ?b] => destruct (Pos.compare_spec a b)
  end.

Lemma SFltb_trans (x y z : spec_float) :
  SFltb x y = true -> SFltb y z = true -> SFltb x z = true.
Proof.
  unfold SFltb, SFcompare.
  destruct x as [sx | sx | | sx mx ex], y as [sy | sy | | sy my ey],
    z as [sz | sz | | sz mz ez];
    repeat match goal with b : bool |- _ => destruct b end;
    try (intros; discriminate); try (intros; reflexivity);
    change (Pos.compare_cont Eq) with Pos.compare;
    intros H1 H2; cmp_cases; cbn in *; subst;
    try discriminate; try reflexivity; try lia.
Qed.

Lemma ltb_irrefl (x : float) : (x <? x)%float = false.
Proof. rewrite ltb_spec. apply SFltb_irrefl. Qed.

Lemma ltb_trans (x y z : float) :
  (x <? y)%float = true -> (y <? z)%float = true -> (x <? z)%float = true.
Proof. rewrite !ltb_spec. apply SFltb_trans. Qed.

Lemma ltb_asym (x y : float) : (x <? y)%float = true -> (y <? x)%float = false.
Proof.
  intros H. destruct (y <? x)%float eqn:E; [|reflexivity].
  pose proof (ltb_trans _ _ _ H E) as C. rewrite ltb_irrefl in C. discriminate.
Qed.

Section Properties.

Variable czero : Z.
Variable Exp : float -> float.

Local Abbreviation update := (update czero Exp).
Local Abbreviation Update := (Update czero Exp).
Local Abbreviation Done := (Done czero Exp).
Local Abbreviation Monitor_Status := (Monitor_Status czero Exp).
Local Abbreviation Limit := (Limit czero Exp).
Local Abbreviation limitLoop := (limitLoop czero Exp).

(** ** A finished monitor is frozen *)

Lemma update_inactive (m : Monitor) (n T : Z) :
  active m = false -> update m n T = (m, 0).
Proof. intros H. unfold update. rewrite H. reflexivity. Qed.

Lemma limitLoop_inactive (Sleep : Z -> Z -> Z) (fuel : nat) (limit : Z) (m : Monitor) (now T : Z) :
  active m = false -> limitLoop Sleep fuel limit m now T = Ok (m, now, T).
Proof.
  intros H. destruct fuel; cbn [limitLoop]; rewrite H, andb_false_r; reflexivity.
Qed.

Lemma Limit_inactive (Sleep : Z -> Z -> Z) (fuel : nat) (m : Monitor) (want rate : Z) (block : bool) (T : Z) :
  active m = false -> Limit Sleep fuel m want rate block T = Ok (m, want, T).
Proof.
  intros H. unfold Limit.
  destruct ((want <? 1) || (rate <? 1)) eqn:G; [reflexivity|].
  rewrite update_inactive by assumption.
  assert (E : (if block then limitLoop Sleep fuel (sampleLimit m rate) m 0 T else Ok (m, 0, T))
              = Ok (m, 0, T)).
  { destruct block; [apply limitLoop_inactive; assumption | reflexivity]. }
  rewrite E. cbn [bind]. rewrite H. cbn [negb]. rewrite orb_true_r.
  apply orb_false_elim in G. destruct G as [G _].
  destruct (want <? 0) eqn:W; [lia | reflexivity].
Qed.

Lemma Done_inactive (m : Monitor) (T : Z) : active (fst (Done m T)) = false.
Proof.
  unfold Done. destruct (update m 0 T) as [m1 now].
  destruct (0 <? sBytes m1); reflexivity.
Qed.

Lemma Done_sBytes (m : Monitor) (T : Z) : (0 <? sBytes (fst (Done m T))) = false.
Proof.
  unfold Done. destruct (update m 0 T) as [m1 now].
  destruct (0 <? sBytes m1) eqn:E; cbn; [reflexivity | exact E].
Qed.

Lemma Done_returns_bytes (m : Monitor) (T : Z) :
  snd (Done m T) = bytes (fst (Done m T)).
Proof.
  unfold Done. destruct (update m 0 T) as [m1 now].
  destruct (0 <? sBytes m1); reflexivity.
Qed.

Lemma set_active_same (m : Monitor) : set_active m (active m) = m.
Proof. destruct m; reflexivity. Qed.

Lemma Done_frozen (m : Monitor) (T : Z) :
  active m = false -> (0 <? sBytes m) = false -> Done m T = (m, bytes m).
Proof.
  intros A B. unfold Done. rewrite update_inactive by assumption.
  rewrite B. rewrite <- A at 1. rewrite set_active_same. reflexivity.
Qed.

(** C6: [Done] is idempotent. A second call returns the total of the first
    call and leaves every field of the monitor as the first call left
    it. *)
Theorem C6_Done_idempotent (m : Monitor) (T1 T2 : Z) :
  Done (fst (Done m T1)) T2 = Done m T1.
Proof.
  rewrite (Done_frozen (fst (Done m T1)) T2 (Done_inactive m T1) (Done_sBytes m T1)).
  rewrite <- Done_returns_bytes. destruct (Done m T1); reflexivity.
Qed.

(** C7: after [Done], [Update], [Limit] (blocking or not) and [Status]
    leave every field of the monitor, [bytes] among them, as it is;
    [Update] and [Limit] hand their argument back, and [Status] reports
    [Active = false], [InstRate = 0] and [CurRate = 0] with the frozen
    total. *)
Theorem C7_frozen_after_Done (m : Monitor) (T0 : Z) :
  let md := fst (Done m T0) in
  (forall n T, Update md n T = (md, n)) /\
  (forall Sleep fuel want rate block T,
      Limit Sleep fuel md want rate block T = Ok (md, want, T)) /\
  (forall T,
      let '(m', s) := Monitor_Status md T in
      m' = md /\ Active s = false /\ InstRate s = 0 /\ CurRate s = 0 /\
      Bytes s = bytes md /\ Bytes s = snd (Done m T0)).
Proof.
  intros md. pose proof (Done_inactive m T0) as A. fold md in A.
  split; [|split].
  - intros n T. unfold Update. rewrite update_inactive by assumption. reflexivity.
  - intros. apply Limit_inactive. assumption.
  - intros T. unfold Monitor_Status. rewrite update_inactive by assumption.
    cbn [fst Active InstRate CurRate Bytes]. rewrite A.
    repeat split; try reflexivity.
    unfold md. symmetry. apply Done_returns_bytes.
Qed.

(** ** The allowance of a non-blocking [Limit] *)

Lemma Limit_nonblocking (Sleep : Z -> Z -> Z) (fuel : nat) (m : Monitor) (want rate T : Z) :
  Limit Sleep fuel m want rate false T =
  if (want <? 1) || (rate <? 1) then Ok (m, want, T)
  else
    let m' := fst (update m 0 T) in
    let limit := wrap64 (sampleLimit m rate - sBytes m') in
    let limit := if (want <? limit) || negb (active m') then want else limit in
    Ok (m', if limit <? 0 then 0 else limit, T).
Proof.
  unfold Limit. destruct ((want <? 1) || (rate <? 1)); [reflexivity|].
  destruct (update m 0 T) as [m' now]. reflexivity.
Qed.

(** C2 (amended): for every monitor, rate and time, a non-blocking
    [Limit(want, rate, false)] returns without waiting a value [n] that
    never exceeds [want]; when [want >= 0] it lies in [0, want]. *)
Theorem C2_Limit_bounds (Sleep : Z -> Z -> Z) (fuel : nat) (m : Monitor) (want rate T : Z) :
  0 <= want ->
  exists m' n T',
    Limit Sleep fuel m want rate false T = Ok (m', n, T') /\ 0 <= n <= want.
Proof.
  intros Hw. rewrite Limit_nonblocking.
  destruct ((want <? 1) || (rate <? 1)) eqn:G.
  - exists m, want, T. split; [reflexivity | lia].
  - apply orb_false_elim in G. destruct G as [G _].
    eexists _, _, _. split; [reflexivity|]. cbv zeta.
    destruct ((want <? _) || _) eqn:E.
    + destruct (want <? 0) eqn:W; lia.
    + apply orb_false_elim in E. destruct E as [E _].
      destruct (_ <? 0) eqn:W; lia.
Qed.

(** A [Limit] that does not block never returns more than was asked,
    whatever the sign of [want]. *)
Lemma Limit_le_want (Sleep : Z -> Z -> Z) (fuel : nat) (m : Monitor) (want rate T : Z) :
  exists m' n T',
    Limit Sleep fuel m want rate false T = Ok (m', n, T') /\ n <= want.
Proof.
  rewrite Limit_nonblocking.
  destruct ((want <? 1) || (rate <? 1)) eqn:G.
  - exists m, want, T. split; [reflexivity | lia].
  - apply orb_false_elim in G. destruct G as [G _].
    eexists _, _, _. split; [reflexivity|]. cbv zeta.
    destruct ((want <? _) || _) eqn:E.
    + destruct (want <? 0) eqn:W; lia.
    + apply orb_false_elim in E. destruct E as [E _].
      destruct (_ <? 0) eqn:W; lia.
Qed.

(** ** Byte totals *)

Local Abbreviation step := (step czero Exp).
Local Abbreviation run := (run czero Exp).

Local Abbreviation rollover := (rollover Exp).

(** [update] on an active monitor: the bytes join the sample in progress,
    and when the sample is done the monitor rolls over. *)
Lemma update_active (m : Monitor) (n T : Z) :
  active m = true ->
  update m n T =
  (let m1 := set_sBytes m (wrap64 (sBytes m + n)) in
   if sRate m <=? wrap64 (clock czero T - sLast m)
   then rollover m1 (clock czero T) else m1,
   clock czero T).
Proof.
  intros A. unfold update, rollover. rewrite A. cbn [negb]. cbv zeta.
  cbn [sRate sLast set_sBytes].
  destruct (sRate m <=? _); [|reflexivity].
  cbn [sBytes set_sBytes set_rSample rPeak rSample samples active start bytes
       rEMA rWindow sLast sRate].
  destruct (rPeak m <? _)%float;
    cbn [samples set_rPeak set_rSample set_sBytes];
    destruct (0 <? samples m); reflexivity.
Qed.

Lemma update_counted (m : Monitor) (acc n T : Z) :
  counted m acc -> 0 <= n -> acc + n <= maxInt64 -> active m = true ->
  let m' := fst (update m n T) in
  counted m' (acc + n) /\ bytes m <= bytes m' /\ active m' = true.
Proof.
  intros (Hb & Hs & Hacc & _) Hn Hmax Hact. rewrite update_active by assumption.
  assert (W : wrap64 (sBytes m + n) = sBytes m + n)
    by (apply wrap64_id; unfold minInt64, maxInt64 in *; lia).
  assert (W' : wrap64 (bytes m + (sBytes m + n)) = bytes m + (sBytes m + n))
    by (apply wrap64_id; unfold minInt64, maxInt64 in *; lia).
  cbv zeta. cbn [fst]. rewrite W.
  destruct (sRate m <=? _); unfold counted, rollover;
    cbn [bytes sBytes active set_sBytes]; rewrite ?W', ?Hact;
    repeat split; try lia; try congruence.
Qed.

Lemma update0_counted (m : Monitor) (acc T : Z) :
  counted m acc -> acc <= maxInt64 ->
  let m' := fst (update m 0 T) in
  counted m' acc /\ bytes m <= bytes m' /\ active m' = active m.
Proof.
  intros C Hmax. destruct (active m) eqn:A.
  - pose proof (update_counted m acc 0 T C ltac:(lia) ltac:(lia) A) as H.
    rewrite Z.add_0_r in H. exact H.
  - rewrite update_inactive by assumption. cbn. repeat split; try apply C; try lia.
    assumption.
Qed.

Lemma Done_counted (m : Monitor) (acc T : Z) :
  counted m acc -> acc <= maxInt64 ->
  let m' := fst (Done m T) in
  counted m' acc /\ bytes m <= bytes m' /\ active m' = false /\ bytes m' = acc.
Proof.
  intros C Hmax.
  pose proof (update0_counted m acc T C Hmax) as (C1 & Hle & _).
  unfold Done. destruct (update m 0 T) as [m1 now]. cbn [fst] in *.
  destruct C1 as (Hb & Hs & Hacc & Hin).
  assert (W : wrap64 (bytes m1 + sBytes m1) = bytes m1 + sBytes m1)
    by (apply wrap64_id; unfold minInt64, maxInt64 in *; lia).
  destruct (0 <? sBytes m1) eqn:E; unfold counted; cbn; rewrite ?W;
    repeat split; try lia.
Qed.

Lemma step_counted (m : Monitor) (acc : Z) (c : Z * call) :
  counted m acc -> nonneg_call c ->
  acc + transferred (active m) [c] <= maxInt64 ->
  counted (step m c) (acc + transferred (active m) [c]) /\
  bytes m <= bytes (step m c) /\
  active (step m c) = still_active (active m) [c].
Proof.
  intros C Hn Hmax. destruct c as [T c]. unfold still_active.
  destruct c as [n | | want rate |]; cbn [transferred step snd forallb] in *;
    rewrite ?Z.add_0_r, ?andb_true_r, ?andb_false_r in *.
  - unfold Update. cbn [fst]. destruct (active m) eqn:A.
    + apply update_counted; assumption.
    + rewrite update_inactive by assumption. cbn [fst].
      rewrite Z.add_0_r. repeat split; try apply C; try lia; assumption.
  - unfold Monitor_Status. cbn [fst]. apply update0_counted; assumption.
  - rewrite Limit_nonblocking.
    destruct ((want <? 1) || (rate <? 1)).
    + repeat split; try apply C; lia.
    + cbv zeta. apply update0_counted; assumption.
  - pose proof (Done_counted m acc T C Hmax) as (H1 & H2 & H3 & _). auto.
Qed.

Lemma transferred_nonneg (act : bool) (tr : list (Z * call)) :
  Forall nonneg_call tr -> 0 <= transferred act tr.
Proof.
  intros H. revert act. induction H as [| [T c] tr Hc _ IH]; intros act; cbn; [lia|].
  destruct c; unfold nonneg_call in Hc; cbn in Hc;
    try apply IH. specialize (IH act). destruct act; lia.
Qed.

Lemma transferred_cons (act : bool) (c : Z * call) (tr : list (Z * call)) :
  transferred act (c :: tr) =
  transferred act [c] + transferred (still_active act [c]) tr.
Proof.
  unfold still_active. destruct c as [T c]. destruct c; cbn;
    rewrite ?andb_true_r, ?andb_false_r; lia.
Qed.

Lemma still_active_cons (act : bool) (c : Z * call) (tr : list (Z * call)) :
  still_active act (c :: tr) = still_active (still_active act [c]) tr.
Proof.
  unfold still_active. cbn. rewrite andb_true_r, andb_assoc. reflexivity.
Qed.

Lemma run_counted (tr : list (Z * call)) : forall (m : Monitor) (acc : Z),
  counted m acc -> Forall nonneg_call tr ->
  acc + transferred (active m) tr <= maxInt64 ->
  counted (run m tr) (acc + transferred (active m) tr) /\
  bytes m <= bytes (run m tr) /\
  active (run m tr) = still_active (active m) tr.
Proof.
  induction tr as [| c tr IH]; intros m acc C Hn Hmax.
  - cbn. unfold still_active. cbn. rewrite Z.add_0_r, andb_true_r. auto with zarith.
  - inversion Hn as [| ? ? Hc Htr]; subst.
    rewrite (transferred_cons (active m) c tr) in *.
    rewrite (still_active_cons (active m) c tr).
    pose proof (transferred_nonneg (still_active (active m) [c]) tr Htr) as P.
    pose proof (step_counted m acc c C Hc ltac:(lia)) as (C1 & Hle & Hact).
    specialize (IH (step m c) _ C1 Htr). rewrite Hact in IH.
    specialize (IH ltac:(lia)). destruct IH as (C2 & Hle2 & Hact2).
    unfold run in *. cbn [fold_left]. rewrite Z.add_assoc.
    split; [exact C2 | split; [lia | exact Hact2]].
Qed.

Lemma transferred_app (tr1 tr2 : list (Z * call)) : forall act,
  transferred act (tr1 ++ tr2) =
  transferred act tr1 + transferred (still_active act tr1) tr2.
Proof.
  induction tr1 as [| c tr1 IH]; intros act.
  - unfold still_active. cbn. rewrite andb_true_r. reflexivity.
  - cbn [app]. rewrite transferred_cons, IH, (transferred_cons act c tr1).
    rewrite (still_active_cons act c tr1). lia.
Qed.

Lemma New_counted (sampleRate windowSize T0 : Z) :
  counted (New czero sampleRate windowSize T0) 0 /\
  active (New czero sampleRate windowSize T0) = true.
Proof. unfold counted, New. cbn. repeat split; try lia. Qed.

(** C1 (amended): for a new monitor and every sequence of calls whose
    [Update(n)] have [n >= 0] (their sum fitting an [int64]): [Done]
    returns the sum of the [n] passed while the monitor was active;
    [Status] reports that sum less the bytes of the sample in progress, so
    never more than the sum; and [bytes] is never decremented, neither
    along the sequence nor by the [Status] or [Done] that follows it. *)
Theorem C1_total_bytes (sampleRate windowSize T0 : Z) (tr : list (Z * call)) :
  Forall nonneg_call tr ->
  transferred true tr <= maxInt64 ->
  let m := run (New czero sampleRate windowSize T0) tr in
  (forall T, snd (Done m T) = transferred true tr) /\
  (forall T, let '(m', s) := Monitor_Status m T in
             Bytes s + sBytes m' = transferred true tr /\
             0 <= sBytes m' /\ bytes m <= Bytes s) /\
  (forall T, bytes m <= snd (Done m T)) /\
  (forall tr1 tr2, tr = tr1 ++ tr2 ->
     bytes (run (New czero sampleRate windowSize T0) tr1) <= bytes m).
Proof.
  intros Hn Hmax m.
  pose proof (New_counted sampleRate windowSize T0) as (C0 & A0).
  pose proof (run_counted tr _ 0 C0 Hn) as R. rewrite A0 in R.
  specialize (R ltac:(lia)). destruct R as (C & _ & _).
  fold m in C. rewrite Z.add_0_l in C.
  assert (D : forall T, snd (Done m T) = transferred true tr /\ bytes m <= snd (Done m T)).
  { intros T. rewrite Done_returns_bytes.
    pose proof (Done_counted m _ T C Hmax) as (_ & H2 & _ & H4). auto. }
  split; [intros T; apply D|]. split; [|split; [intros T; apply D|]].
  - intros T. unfold Monitor_Status.
    pose proof (update0_counted m _ T C Hmax) as ((Hb & Hs & Hacc & _) & Hle & _).
    cbn [Bytes fst]. auto.
  - intros tr1 tr2 E. subst tr. unfold m.
    apply Forall_app in Hn. destruct Hn as [Hn1 Hn2].
    rewrite transferred_app in Hmax.
    pose proof (transferred_nonneg (still_active true tr1) tr2 Hn2) as P2.
    pose proof (run_counted tr1 _ 0 C0 Hn1) as R1. rewrite A0 in R1.
    specialize (R1 ltac:(lia)). destruct R1 as (C1 & _ & Hact1).
    pose proof (run_counted tr2 _ _ C1 Hn2) as R2. rewrite Hact1 in R2.
    specialize (R2 ltac:(lia)). destruct R2 as (_ & Hle & _).
    unfold run in *. rewrite fold_left_app. exact Hle.
Qed.

(** ** The budget of one sampling period *)

Local Abbreviation transfers := (transfers czero Exp).
Local Abbreviation within_period := (within_period czero).
Local Abbreviation sampleDone := (sampleDone czero).

Lemma update_pending (m : Monitor) (n T : Z) :
  active m = true -> sampleDone m T = false ->
  update m n T = (set_sBytes m (wrap64 (sBytes m + n)), clock czero T).
Proof.
  intros A S. rewrite update_active by assumption. cbv zeta.
  unfold sampleDone in S. rewrite A in S. cbn [andb] in S. rewrite S.
  reflexivity.
Qed.

Lemma set_sBytes_same (m : Monitor) : set_sBytes m (sBytes m) = m.
Proof. destruct m; reflexivity. Qed.

Lemma transfers_cons (m : Monitor) (rate T want : Z) (calls : list (Z * Z)) :
  transfers m rate ((T, want) :: calls) =
  match Limit (fun T _ => T) 0 m want rate false T with
  | Ok (m', n, T') => n :: transfers (fst (Update m' n T')) rate calls
  | _ => []
  end.
Proof. reflexivity. Qed.

Lemma within_period_set_sBytes (m : Monitor) (x : Z) (calls : list (Z * Z)) :
  within_period m calls -> within_period (set_sBytes m x) calls.
Proof. intros H. exact H. Qed.

(** Within a period the bytes of the sample in progress, together with
    what is still transferred, stay below the larger of the budget and the
    bytes that were pending at the start. *)
Lemma transfers_bound (rate : Z) (calls : list (Z * Z)) : forall m : Monitor,
  active m = true -> 1 <= rate -> 0 <= sBytes m <= maxInt64 ->
  within_period m calls ->
  sBytes m + total (transfers m rate calls)
  <= Z.max (sBytes m) (sampleLimit m rate).
Proof.
  induction calls as [| [T want] calls IH]; intros m A R S W.
  - cbn. lia.
  - inversion W as [| ? ? [Hw Hd] W']; subst. cbn [fst snd] in Hw, Hd.
    pose proof (sampleLimit_range m rate) as B.
    rewrite transfers_cons, Limit_nonblocking.
    assert (U0 : update m 0 T = (m, clock czero T)).
    { rewrite update_pending by assumption.
      rewrite Z.add_0_r, wrap64_id, set_sBytes_same by (unfold minInt64; lia).
      reflexivity. }
    destruct ((want <? 1) || (rate <? 1)) eqn:G.
    + apply orb_true_elim in G. destruct G as [G | G]; [|lia].
      assert (want = 0) by lia. subst want.
      unfold Update. rewrite U0. cbn [fst total fold_right].
      specialize (IH m A R S W'). fold (total (transfers m rate calls)). lia.
    + cbv zeta. rewrite U0. cbn [fst].
      rewrite A. cbn [negb]. rewrite orb_false_r.
      rewrite (wrap64_id (sampleLimit m rate - sBytes m))
        by (unfold minInt64, maxInt64 in *; lia).
      set (n := if (if want <? sampleLimit m rate - sBytes m then want
                    else sampleLimit m rate - sBytes m) <? 0
                then 0
                else (if want <? sampleLimit m rate - sBytes m then want
                      else sampleLimit m rate - sBytes m)).
      assert (Hn : 0 <= n /\ sBytes m + n <= Z.max (sBytes m) (sampleLimit m rate)).
      { subst n. destruct (want <? sampleLimit m rate - sBytes m) eqn:E1;
          destruct (_ <? 0) eqn:E2; lia. }
      unfold Update. rewrite update_pending by assumption. cbn [fst].
      rewrite (wrap64_id (sBytes m + n)) by (unfold minInt64, maxInt64 in *; lia).
      specialize (IH (set_sBytes m (sBytes m + n)) A R).
      cbn [sBytes set_sBytes] in IH.
      specialize (IH ltac:(unfold maxInt64 in *; lia)
                     (within_period_set_sBytes m _ calls W')).
      change (sampleLimit (set_sBytes m (sBytes m + n)) rate)
        with (sampleLimit m rate) in IH.
      cbn [total fold_right].
      fold (total (transfers (set_sBytes m (sBytes m + n)) rate calls)). lia.
Qed.

(** C3 (amended): take an active monitor with no negative count pending,
    a rate [R >= 1], and consecutive non-blocking [Limit(want, R, false)]
    calls that fall within one sampling period, each allowance being
    transferred and reported to [Update] before the next call. The sum of
    the allowances does not exceed the budget of the period,
    [round(R * period)] floored to 1, less the bytes already pending. *)
Theorem C3_period_budget (m : Monitor) (rate : Z) (calls : list (Z * Z)) :
  active m = true -> 1 <= rate -> 0 <= sBytes m <= maxInt64 ->
  within_period m calls ->
  total (transfers m rate calls) <= sampleLimit m rate /\
  sBytes m + total (transfers m rate calls)
  <= Z.max (sBytes m) (sampleLimit m rate).
Proof.
  intros A R S W.
  pose proof (transfers_bound rate calls m A R S W) as H.
  pose proof (sampleLimit_range m rate) as B.
  split; [lia | exact H].
Qed.

(** ** The last sample *)

Local Abbreviation Done_rollover := (Done_rollover czero Exp).

(** C5 (amended): when bytes are pending at the first [Done], they are
    added to the total byte count, one more sample is counted, the monitor
    is marked inactive and the total is returned. If the sample is done at
    that time, this is the rollover of [update], rate statistics included;
    otherwise [Done] only resets the sample: the last boundary moves to the
    time of the call while [rSample], [rEMA] and [rPeak] keep their
    values. *)
Theorem C5_Done_pending (m : Monitor) (T : Z) :
  active m = true -> 0 < sBytes m -> 0 <= bytes m ->
  bytes m + sBytes m <= maxInt64 ->
  let '(m', n) := Done m T in
  active m' = false /\ n = bytes m' /\ bytes m' = bytes m + sBytes m /\
  sBytes m' = 0 /\ samples m' = wrap64 (samples m + 1) /\
  sLast m' = clock czero T /\
  if sRate m <=? wrap64 (clock czero T - sLast m)
  then m' = Done_rollover m T
  else rSample m' = rSample m /\ rEMA m' = rEMA m /\ rPeak m' = rPeak m.
Proof.
  intros A S B Hmax. unfold Done. rewrite update_active by assumption.
  rewrite Z.add_0_r, wrap64_id, set_sBytes_same
    by (unfold minInt64, maxInt64 in *; lia).
  assert (W : wrap64 (bytes m + sBytes m) = bytes m + sBytes m)
    by (apply wrap64_id; unfold minInt64, maxInt64 in *; lia).
  cbv zeta. destruct (sRate m <=? _).
  - unfold Done_rollover, rollover. cbn [sBytes]. cbn. rewrite W. auto 10.
  - assert (E : (0 <? sBytes m) = true) by lia. rewrite E.
    cbn. rewrite W. auto 10.
Qed.

(** ** Rate statistics *)

(** C4 (amended): at a rollover of [update], with [t] the seconds since the
    last boundary, [rSample] is the pending bytes divided by [t]; at the
    first rollover [rEMA] is that sample; later it is
    [rSample + w * (old rEMA - rSample)] with [w = exp(-t / rWindow)], the
    binary64 evaluation of [rSample * (1 - w) + old rEMA * w]. With a period
    of 100 ms and a window of 1 s, 1000 bytes over the first period give
    [InstRate = CurRate = 10000]; 500 bytes over the second give
    [InstRate = 5000] and, [math.Exp(-0.1)] being the binary64 number next to
    [exp(-0.1)], [CurRate = 9524]. *)
Theorem C4_rollover_rates (m : Monitor) (n T : Z) :
  active m = true ->
  sRate m <= wrap64 (clock czero T - sLast m) ->
  let t := Seconds (wrap64 (clock czero T - sLast m)) in
  let inst := (float64 (wrap64 (sBytes m + n)) / t)%float in
  let m' := fst (update m n T) in
  (rSample m' = inst /\
   (samples m <= 0 -> rEMA m' = inst) /\
   (0 < samples m ->
    rEMA m' = (inst + Exp (- t / rWindow m) * (rEMA m - inst))%float)) /\
  (InstRate (scenarioA1_Status Exp) = 10000 /\
   CurRate (scenarioA1_Status Exp) = 10000) /\
  (Exp (-0x1.999999999999ap-4)%float = 0x1.cf46d99d52b3ap-1%float ->
   InstRate (scenarioA2_Status Exp) = 5000 /\
   CurRate (scenarioA2_Status Exp) = 9524).
Proof.
  intros A D t inst m'. split; [|split].
  - unfold m'. rewrite update_active by assumption. cbv zeta.
    apply Z.leb_le in D. rewrite D. unfold rollover. cbn [fst rSample rEMA].
    cbn [sBytes sLast samples rWindow rEMA set_sBytes]. fold t. fold inst.
    split; [reflexivity|]. split; intros H.
    + assert (E : (0 <? samples m) = false) by lia. rewrite E. reflexivity.
    + assert (E : (0 <? samples m) = true) by lia. rewrite E. reflexivity.
  - vm_compute. split; reflexivity.
  - intros H.
    assert (E : scenarioA2 Exp =
                mkMonitor true 0 1500 2 5000
                  (5000 + Exp (-0x1.999999999999ap-4) * 5000)%float
                  10000 1 0 200000000 100000000).
    { vm_compute. reflexivity. }
    unfold scenarioA2_Status. rewrite E, H. vm_compute. split; reflexivity.
Qed.
(** ** The average rate *)

(** C10: in the value returned by [Status], [AvgRate] is
    [round(Bytes / Duration.Seconds())] when [Duration > 0] and [0] when
    [Duration <= 0]; on a quotient [q >= 0] (whose rounding fits an
    [int64]) [round] is round-half-up, the integer part of [q + 1/2]. *)
Theorem C10_AvgRate (m : Monitor) (T : Z) :
  let s := snd (Monitor_Status m T) in
  let x := (float64 (Bytes s) / Seconds (Duration s))%float in
  (0 < Duration s -> AvgRate s = round x) /\
  (Duration s <= 0 -> AvgRate s = 0) /\
  (forall q : Q,
      exact x = RFin q -> (0 <= q)%Q -> Qfloor (q + (1 # 2)) <= maxInt64 ->
      round x = Qfloor (q + (1 # 2))).
Proof.
  intros s x. split; [|split].
  - intros D. unfold x, s, Monitor_Status in *. cbn [snd AvgRate Bytes Duration] in *.
    assert (E : (0 <? wrap64 (sLast (fst (update m 0 T)) - start (fst (update m 0 T)))) = true)
      by lia.
    rewrite E. reflexivity.
  - intros D. unfold s, Monitor_Status in *. cbn [snd AvgRate Duration] in *.
    assert (E : (0 <? wrap64 (sLast (fst (update m 0 T)) - start (fst (update m 0 T)))) = false)
      by lia.
    rewrite E. reflexivity.
  - intros q. apply round_half_up.
Qed.

(** ** The peak rate *)

Local Abbreviation instRates := (instRates czero Exp).

Lemma update_rPeak (m : Monitor) (n T : Z) :
  let m' := fst (update m n T) in
  rPeak m' =
  if sampleDone m T
  then (if (rPeak m <? rSample m')%float then rSample m' else rPeak m)
  else rPeak m.
Proof.
  cbv zeta. unfold sampleDone. destruct (active m) eqn:A.
  - rewrite update_active by assumption. cbn [andb fst]. cbv zeta.
    destruct (sRate m <=? _); reflexivity.
  - rewrite update_inactive by assumption. reflexivity.
Qed.

Lemma Done_rates (m : Monitor) (T : Z) :
  rPeak (fst (Done m T)) = rPeak (fst (update m 0 T)) /\
  rSample (fst (Done m T)) = rSample (fst (update m 0 T)).
Proof.
  unfold Done. destruct (update m 0 T) as [m1 now].
  destruct (0 <? sBytes m1); split; reflexivity.
Qed.

(** What a call does to the peak: it takes the new sample when the call
    ends a sample and the sample is larger. *)
Lemma step_rPeak (m : Monitor) (c : Z * call) :
  let m' := step m c in
  rPeak m' =
  if calls_update (snd c) && sampleDone m (fst c)
  then (if (rPeak m <? rSample m')%float then rSample m' else rPeak m)
  else rPeak m.
Proof.
  destruct c as [T c]. cbv zeta. cbn [fst snd].
  destruct c as [n | | want rate |]; cbn [step calls_update].
  - unfold Update. cbn [fst andb]. apply update_rPeak.
  - unfold Monitor_Status. cbn [fst andb]. apply update_rPeak.
  - rewrite Limit_nonblocking.
    destruct ((want <? 1) || (rate <? 1)); cbn [negb andb]; [reflexivity|].
    cbv zeta. apply update_rPeak.
  - destruct (Done_rates m T) as [P S]. cbn [andb]. rewrite P, S.
    apply update_rPeak.
Qed.

(** No call makes [rPeak] smaller. *)
Lemma step_rPeak_mono (m : Monitor) (c : Z * call) :
  (rPeak (step m c) <? rPeak m)%float = false.
Proof.
  rewrite step_rPeak.
  destruct (calls_update (snd c) && sampleDone m (fst c)); [|apply ltb_irrefl].
  destruct (rPeak m <? rSample (step m c))%float eqn:E;
    [apply ltb_asym; assumption | apply ltb_irrefl].
Qed.

Lemma instRates_cons (m : Monitor) (c : Z * call) (tr : list (Z * call)) :
  instRates m (c :: tr) =
  (if calls_update (snd c) && sampleDone m (fst c)
   then [rSample (step m c)] else []) ++ instRates (step m c) tr.
Proof. reflexivity. Qed.

Lemma step_peak_of (p0 : float) (past : list float) (m : Monitor) (c : Z * call) :
  peak_of p0 past m ->
  peak_of p0
    (past ++ (if calls_update (snd c) && sampleDone m (fst c)
              then [rSample (step m c)] else []))
    (step m c).
Proof.
  intros [Hin Hmax]. unfold peak_of. rewrite step_rPeak.
  destruct (calls_update (snd c) && sampleDone m (fst c)).
  2:{ rewrite app_nil_r. split; assumption. }
  set (r := rSample (step m c)).
  destruct (rPeak m <? r)%float eqn:E.
  - split.
    + right. apply in_or_app. right. left. reflexivity.
    + intros x Hx. rewrite app_comm_cons in Hx. apply in_app_or in Hx.
      destruct Hx as [Hx | [Hx | []]].
      * destruct (r <? x)%float eqn:F; [|reflexivity].
        pose proof (ltb_trans _ _ _ E F) as C.
        rewrite (Hmax x Hx) in C. discriminate.
      * subst x. apply ltb_irrefl.
  - split.
    + rewrite app_comm_cons. apply in_or_app. left. assumption.
    + intros x Hx. rewrite app_comm_cons in Hx. apply in_app_or in Hx.
      destruct Hx as [Hx | [Hx | []]]; [apply Hmax; assumption | subst x; exact E].
Qed.

Lemma run_peak_of (tr : list (Z * call)) :
  forall (p0 : float) (past : list float) (m : Monitor),
  peak_of p0 past m -> peak_of p0 (past ++ instRates m tr) (run m tr).
Proof.
  induction tr as [| c tr IH]; intros p0 past m H.
  - cbn. rewrite app_nil_r. exact H.
  - rewrite instRates_cons, app_assoc. unfold run. cbn [fold_left].
    apply IH. apply step_peak_of. exact H.
Qed.

Lemma New_peak_of (sampleRate windowSize T0 : Z) :
  peak_of 0%float [] (New czero sampleRate windowSize T0).
Proof.
  split.
  - left. reflexivity.
  - intros r [<- | []]. reflexivity.
Qed.

(** C8: along every sequence of calls on a new monitor, [rPeak] is the
    largest of the rate samples computed at the rollovers so far and of the
    zero it starts from (it is zero before the first rollover): it is one
    of them and none of them is larger. It never decreases, neither from
    any earlier point of the sequence nor by one more call. *)
Theorem C8_peak_rate (sampleRate windowSize T0 : Z) (tr : list (Z * call)) :
  let m0 := New czero sampleRate windowSize T0 in
  let m := run m0 tr in
  let rs := instRates m0 tr in
  In (rPeak m) (0%float :: rs) /\
  (forall r, In r rs -> (rPeak m <? r)%float = false) /\
  (rs = [] -> rPeak m = 0%float) /\
  (forall tr1 tr2, tr = tr1 ++ tr2 ->
     (rPeak m <? rPeak (run m0 tr1))%float = false) /\
  (forall c, (rPeak (step m c) <? rPeak m)%float = false).
Proof.
  intros m0 m rs.
  pose proof (run_peak_of tr _ _ _ (New_peak_of sampleRate windowSize T0)) as [Hin Hmax].
  cbn [app] in Hin, Hmax. fold m0 in Hin, Hmax. fold m in Hin, Hmax. fold rs in Hin, Hmax.
  split; [exact Hin|]. split; [|split; [|split]].
  - intros r Hr. apply Hmax. right. exact Hr.
  - intros E. rewrite E in Hin. destruct Hin as [H | []]. symmetry. exact H.
  - intros tr1 tr2 E. subst tr.
    pose proof (run_peak_of tr1 _ _ _ (New_peak_of sampleRate windowSize T0)) as H1.
    cbn [app] in H1. fold m0 in H1.
    pose proof (run_peak_of tr2 _ _ _ H1) as [_ H2].
    unfold m, run in *. rewrite fold_left_app. apply H2.
    destruct H1 as [H1 _]. rewrite app_comm_cons. apply in_or_app. left. exact H1.
  - intros c. apply step_rPeak_mono.
Qed.
End Properties.

(** * A caller that blocks *)

Section Blocking.

Variable czero : Z.
Variable Exp : float -> float.
Variable Sleep : Z -> Z -> Z.

(** The longest time a sleeper oversleeps. *)
Variable J : Z.

(** [czero] is a multiple of [clockRate], as its initialisation makes it. *)
Hypothesis czero_tick : 0 <= czero /\ czero mod clockRate = 0.

(** A sleep lasts at least the time asked for, and at most [J] more. *)
Hypothesis Sleep_spec : forall T d : Z, T + d <= Sleep T d <= T + d + J.

Local Abbreviation clock := (clock czero).
Local Abbreviation update := (update czero Exp).
Local Abbreviation Update := (Update czero Exp).
Local Abbreviation Limit := (Limit czero Exp Sleep).
Local Abbreviation limitLoop := (limitLoop czero Exp Sleep).
Local Abbreviation waitLoop := (waitLoop czero Exp Sleep).
Local Abbreviation waitNextSample := (waitNextSample czero Exp Sleep).
Local Abbreviation rollover := (rollover Exp).
Local Abbreviation sampleDone := (sampleDone czero).
Local Abbreviation ready := (ready czero).

Lemma clockRate_pos : 0 < clockRate.
Proof. reflexivity. Qed.

Lemma clock_val (T : Z) :
  czero <= T <= maxInt64 -> clock T = T / clockRate * clockRate - czero.
Proof.
  intros H. destruct czero_tick as [C0 _]. unfold clock.
  pose proof clockRate_pos as P.
  rewrite Z.quot_div_nonneg by lia.
  pose proof (Z.mul_div_le T clockRate P) as L.
  assert (0 <= T / clockRate) by (apply Z.div_pos; lia).
  rewrite (wrap64_id (T / clockRate * clockRate))
    by (unfold minInt64, maxInt64 in *; lia).
  apply wrap64_id. unfold minInt64, maxInt64 in *. lia.
Qed.

Lemma tick_le_div (X T : Z) :
  X mod clockRate = 0 -> X <= T -> X <= T / clockRate * clockRate.
Proof.
  intros M L. pose proof clockRate_pos as P.
  apply Z.div_exact in M; [|lia].
  rewrite M at 1. rewrite (Z.mul_comm clockRate).
  apply Z.mul_le_mono_nonneg_r; [lia|]. apply Z.div_le_mono; lia.
Qed.

(** A reading of the clock is a multiple of [clockRate], it is not ahead of
    the time, and it has passed every tick that the time has passed. *)
Lemma clock_tick (T : Z) :
  czero <= T <= maxInt64 ->
  clock T mod clockRate = 0 /\ 0 <= clock T <= T - czero.
Proof.
  intros H. destruct czero_tick as [C0 C1]. pose proof clockRate_pos as P.
  rewrite clock_val by assumption.
  pose proof (Z.mul_div_le T clockRate P) as L.
  pose proof (tick_le_div czero T C1 ltac:(lia)) as G.
  split; [|lia].
  apply Z.div_exact in C1; [|lia]. rewrite C1 at 1.
  replace (T / clockRate * clockRate - clockRate * (czero / clockRate))
    with ((T / clockRate - czero / clockRate) * clockRate) by lia.
  apply Z.mod_mul. lia.
Qed.

Lemma clock_reaches (X T : Z) :
  czero <= T <= maxInt64 -> X mod clockRate = 0 -> X + czero <= T ->
  X <= clock T.
Proof.
  intros H M L. destruct czero_tick as [C0 C1]. pose proof clockRate_pos as P.
  rewrite clock_val by assumption.
  assert (M' : (X + czero) mod clockRate = 0).
  { rewrite Z.add_mod, M, C1 by lia. reflexivity. }
  pose proof (tick_le_div (X + czero) T M' L). lia.
Qed.

Lemma clock_mono (T T' : Z) :
  czero <= T -> T <= T' <= maxInt64 -> clock T <= clock T'.
Proof.
  intros H H'. pose proof (clock_tick T ltac:(lia)) as [M [_ L]].
  apply clock_reaches; lia.
Qed.

Lemma update_ready (m : Monitor) (n T : Z) :
  ready m T -> 0 <= n -> sBytes m + n <= maxInt64 ->
  let m' := fst (update m n T) in
  ready m' T /\ sRate m' = sRate m /\ active m' = active m /\
  sBytes m' <= sBytes m + n /\ sLast m <= sLast m'.
Proof.
  intros (HT & R0 & R1 & L1 & L2 & S) Hn Hmax. cbv zeta.
  destruct (active m) eqn:A.
  - rewrite update_active by assumption. cbv zeta. cbn [fst].
    rewrite (wrap64_id (sBytes m + n)) by (unfold minInt64, maxInt64 in *; lia).
    pose proof (clock_tick T HT) as [C1 C2].
    destruct (sRate m <=? _); unfold ready, rollover;
      cbn [sRate sLast sBytes active set_sBytes];
      repeat split; try assumption; try lia.
  - rewrite update_inactive by assumption. cbn [fst].
    unfold ready. repeat split; try assumption; lia.
Qed.

Lemma waitLoop_exit (fuel : nat) (current : Z) (m : Monitor) (now T : Z) :
  (sLast m =? current) && active m = false ->
  waitLoop fuel current m now T = Ok (m, now, T).
Proof. intros H. destruct fuel; cbn [waitLoop]; rewrite H; reflexivity. Qed.

Lemma limitLoop_exit (fuel : nat) (limit : Z) (m : Monitor) (now T : Z) :
  (limit <=? sBytes m) && active m = false ->
  limitLoop fuel limit m now T = Ok (m, now, T).
Proof. intros H. destruct fuel; cbn [limitLoop]; rewrite H; reflexivity. Qed.

Lemma tick_pos (d : Z) : d mod clockRate = 0 -> 0 < d -> clockRate <= d.
Proof.
  intros M P. pose proof clockRate_pos as C.
  apply Z.div_exact in M; [|lia].
  assert (0 < d / clockRate) by nia. nia.
Qed.

(** One sleep of [waitNextSample] takes an active monitor over the end of
    its sample: the [update] that follows rolls over. *)
Lemma wait_rolls (fuel : nat) (m : Monitor) (T : Z) :
  ready m T -> active m = true -> sampleDone m T = false ->
  T + sRate m + J <= maxInt64 ->
  let T' := Sleep T (sLast m + sRate m - clock T) in
  waitNextSample (S fuel) m (clock T) T
  = Ok (rollover m (clock T'), clock T', T') /\
  T <= T' <= T + sRate m + J /\
  sLast m + sRate m <= clock T'.
Proof.
  intros (HT & R0 & R1 & L1 & L2 & S) A D Hmax T'.
  destruct czero_tick as [C0 C1].
  pose proof (clock_tick T HT) as [K1 K2].
  unfold sampleDone in D. rewrite A in D. cbn [andb] in D.
  rewrite (wrap64_id (clock T - sLast m)) in D
    by (unfold minInt64, maxInt64 in *; lia).
  apply Z.leb_gt in D.
  set (d := sLast m + sRate m - clock T) in *.
  assert (Hd : clockRate <= d <= sRate m).
  { split; [|unfold d; lia]. apply tick_pos; [|unfold d; lia].
    unfold d. rewrite Zminus_mod, Z.add_mod, L1, R1, K1 by (pose clockRate_pos; lia).
    reflexivity. }
  pose proof (Sleep_spec T d) as Sl. fold T' in Sl.
  assert (HT' : czero <= T' <= maxInt64) by lia.
  assert (Reach : sLast m + sRate m <= clock T').
  { apply clock_reaches; [assumption | | unfold d in *; lia].
    rewrite Z.add_mod, L1, R1 by (pose clockRate_pos; lia). reflexivity. }
  pose proof (clock_tick T' HT') as [K1' K2'].
  split; [|split; [lia | exact Reach]].
  unfold waitNextSample. cbn [waitLoop].
  rewrite Z.eqb_refl, A. cbn [andb].
  rewrite (wrap64_id (sLast m + sRate m)) by (unfold minInt64, maxInt64 in *; lia).
  rewrite (wrap64_id (sLast m + sRate m - clock T))
    by (unfold minInt64, maxInt64 in *; lia).
  fold d.
  assert (E : (d <? minWait) = false).
  { apply Z.ltb_ge. unfold minWait, Millisecond. unfold clockRate, Millisecond in Hd. lia. }
  rewrite E. fold T'.
  rewrite update_active by assumption. cbv zeta.
  rewrite Z.add_0_r, (wrap64_id (sBytes m)), set_sBytes_same
    by (unfold minInt64, maxInt64 in *; lia).
  rewrite (wrap64_id (clock T' - sLast m)) by (unfold minInt64, maxInt64 in *; lia).
  assert (E' : (sRate m <=? clock T' - sLast m) = true) by (apply Z.leb_le; lia).
  rewrite E'. apply waitLoop_exit.
  unfold rollover. cbn [sLast].
  assert (N : (clock T' =? sLast m) = false) by (apply Z.eqb_neq; lia).
  rewrite N. reflexivity.
Qed.

Lemma update_now (m : Monitor) (n T : Z) :
  active m = true -> snd (update m n T) = clock T.
Proof. intros A. rewrite update_active by assumption. reflexivity. Qed.

(** Right after an [update] the sample in progress is not done. *)
Lemma update_settled (m : Monitor) (n T : Z) :
  ready m T -> sampleDone (fst (update m n T)) T = false.
Proof.
  intros (HT & R0 & R1 & L1 & L2 & S). unfold sampleDone.
  destruct (active m) eqn:A.
  - rewrite update_active by assumption. cbv zeta. cbn [fst].
    destruct (sRate m <=? wrap64 (clock T - sLast m)) eqn:E.
    + unfold rollover. cbn [active sRate sLast set_sBytes]. rewrite A, Z.sub_diag.
      cbn [andb]. apply Z.leb_gt. exact R0.
    + cbn [active sRate sLast set_sBytes]. rewrite A, E. reflexivity.
  - rewrite update_inactive by assumption. cbn [fst]. rewrite A. reflexivity.
Qed.

(** The allowance when less than the budget is pending. *)
Lemma allowance_pos (B want : Z) (m : Monitor) :
  1 <= want -> 0 <= sBytes m -> sBytes m < B <= maxInt64 ->
  let limit := wrap64 (B - sBytes m) in
  let limit := if (want <? limit) || negb (active m) then want else limit in
  let limit := if limit <? 0 then 0 else limit in
  1 <= limit <= want /\ (active m = true -> sBytes m + limit <= B).
Proof.
  intros W S HB. cbv zeta.
  rewrite (wrap64_id (B - sBytes m)) by (unfold minInt64, maxInt64 in *; lia).
  destruct (active m); cbn [negb]; rewrite ?orb_true_r, ?orb_false_r.
  - destruct (want <? B - sBytes m) eqn:E1.
    + destruct (want <? 0) eqn:E2; lia.
    + destruct (B - sBytes m <? 0) eqn:E2; lia.
  - destruct (want <? 0) eqn:E2; try lia; (split; [lia | intros C; discriminate]).
Qed.

(** A blocking [Limit] returns after at most one sleep, with a strictly
    positive allowance. *)
Lemma Limit_blocking (fuel : nat) (m : Monitor) (want rate T : Z) :
  ready m T -> 1 <= want -> 1 <= rate ->
  T + sRate m + J <= maxInt64 -> (1 <= fuel)%nat ->
  exists m' n T',
    Limit fuel m want rate true T = Ok (m', n, T') /\
    1 <= n <= want /\
    ready m' T' /\ T <= T' <= T + sRate m + J /\
    sRate m' = sRate m /\ active m' = active m /\
    sBytes m' <= sBytes m /\
    (active m = true -> sBytes m' + n <= sampleLimit m rate) /\
    (T' = T \/ sBytes m' = 0 /\ sLast m < sLast m' /\ sLast m' = clock T').
Proof.
  intros Rd W R Hmax F.
  destruct fuel as [| fuel]; [lia|].
  pose proof (sampleLimit_range m rate) as HB.
  set (B := sampleLimit m rate) in *.
  assert (G : (want <? 1) || (rate <? 1) = false).
  { apply orb_false_intro; apply Z.ltb_ge; lia. }
  unfold Limit. rewrite G. fold B.
  pose proof (update_ready m 0 T Rd ltac:(lia)) as U.
  assert (S0 : 0 <= sBytes m <= maxInt64) by apply Rd.
  specialize (U ltac:(lia)). cbv zeta in U.
  destruct U as (Rd1 & SR1 & A1 & SB1 & SL1).
  pose proof (update_settled m 0 T Rd) as St1.
  destruct (active m) eqn:A.
  2:{ rewrite update_inactive by assumption.
      rewrite limitLoop_exit by (rewrite A; apply andb_false_r).
      cbn [bind]. exists m, want, T.
      rewrite A. cbn [negb]. rewrite orb_true_r.
      assert (E : (want <? 0) = false) by lia. rewrite E.
      pose proof (Sleep_spec 0 0) as J0. destruct Rd as (HT & R0 & Rd').
      split; [reflexivity|]. split; [lia|].
      split; [unfold ready; auto|].
      split; [lia|]. split; [reflexivity|]. split; [reflexivity|].
      split; [lia|]. split; [intros C; discriminate | left; reflexivity]. }
  pose proof (update_now m 0 T A) as Now.
  destruct (update m 0 T) as [m1 now]. cbn [fst snd] in *. subst now.
  assert (S1 : 0 <= sBytes m1 <= maxInt64) by apply Rd1.
  destruct (B <=? sBytes m1) eqn:Full.
  - (* the budget is used up: wait for the next sample *)
    cbn [limitLoop]. rewrite Full, A1. cbn [andb].
    pose proof (wait_rolls fuel m1 T Rd1 A1 St1 ltac:(lia)) as Wt.
    cbv zeta in Wt. destruct Wt as (Wt & HT' & Reach).
    set (T' := Sleep T (sLast m1 + sRate m1 - clock T)) in *.
    rewrite Wt. cbn [bind].
    set (m2 := rollover m1 (clock T')).
    assert (Rd2 : ready m2 T').
    { destruct Rd1 as (HT & R0 & R1 & L1 & L2 & _).
      assert (HT2 : czero <= T' <= maxInt64) by lia.
      pose proof (clock_tick T' HT2) as [K1 K2].
      unfold ready, m2, rollover. cbn [sRate sLast sBytes].
      repeat split; first [assumption | lia]. }
    rewrite limitLoop_exit
      by (unfold m2, rollover; cbn [sBytes];
          replace (B <=? 0) with false by (symmetry; apply Z.leb_gt; lia);
          reflexivity).
    cbn [bind].
    pose proof (allowance_pos B want m2 W ltac:(unfold m2, rollover; cbn; lia)
                  ltac:(unfold m2, rollover; cbn [sBytes]; lia)) as P.
    cbv zeta in P. destruct P as [P1 P2].
    eexists _, _, _. split; [reflexivity|].
    split; [exact P1|]. split; [exact Rd2|]. split; [lia|].
    split; [unfold m2, rollover; cbn [sRate]; lia|].
    split; [unfold m2, rollover; cbn [active]; assumption|].
    split; [unfold m2, rollover; cbn [sBytes]; lia|].
    split; [intros _; apply P2; unfold m2, rollover; cbn [active]; assumption|].
    right. unfold m2, rollover. cbn [sBytes sLast].
    destruct Rd1 as (_ & R0 & _). repeat split; lia.
  - (* some of the budget is left *)
    rewrite limitLoop_exit by (rewrite Full; reflexivity).
    cbn [bind]. apply Z.leb_gt in Full.
    pose proof (allowance_pos B want m1 W ltac:(lia) ltac:(lia)) as P.
    cbv zeta in P. destruct P as [P1 P2].
    eexists _, _, _. split; [reflexivity|].
    split; [exact P1|]. split; [exact Rd1|]. split.
    { destruct Rd as (_ & R0 & _). pose proof (Sleep_spec 0 0). lia. }
    split; [assumption|]. split; [assumption|]. split; [lia|].
    split; [intros _; apply P2; assumption | left; reflexivity].
Qed.

(** ** Writer.Write *)

Context {U : Type} `{W : io_Writer U}.

(** The underlying stream takes all it is given and reports no error. *)
Hypothesis Write_all :
  forall (u : U) (s : list Byte.byte), snd (io_Write u s) = (len s, None).

Local Abbreviation writeLoop := (@writeLoop czero Exp Sleep U W).
Local Abbreviation Write := (@Write czero Exp Sleep U W).

Lemma Limit_writer (fuel : nat) (m : Monitor) (want rate T : Z) :
  ready m T -> 1 <= want ->
  T + sRate m + J <= maxInt64 -> (1 <= fuel)%nat ->
  exists m' n T',
    Limit fuel m want rate true T = Ok (m', n, T') /\
    1 <= n <= want /\
    ready m' T' /\ T <= T' <= T + sRate m + J /\
    sRate m' = sRate m /\ sBytes m' <= sBytes m.
Proof.
  intros Rd Hw Hmax F. destruct (rate <? 1) eqn:R.
  - exists m, want, T. unfold Limit. rewrite R, orb_true_r.
    pose proof (Sleep_spec 0 0). destruct Rd as (HT & R0 & Rd').
    split; [reflexivity|]. split; [lia|]. split; [unfold ready; auto|].
    repeat split; lia.
  - apply Z.ltb_ge in R.
    destruct (Limit_blocking fuel m want rate T Rd Hw R Hmax F)
      as (m' & n & T' & E & Hn & Rd' & HT' & SR & _ & SB & _).
    exists m', n, T'. auto 10.
Qed.

Lemma len_cons {A : Type} (a : A) (l : list A) : len (a :: l) = 1 + len l.
Proof. unfold len. cbn [length]. lia. Qed.

Lemma len_nonneg {A : Type} (l : list A) : 0 <= len l.
Proof. unfold len. lia. Qed.

Lemma writeLoop_all (fuel : nat) :
  forall (w : Writer U) (p : list Byte.byte) (n T : Z),
  ready (Writer_Monitor w) T -> Block w = true ->
  (length p <= fuel)%nat ->
  sBytes (Writer_Monitor w) + len p <= maxInt64 ->
  0 <= n -> n + len p <= maxInt64 ->
  T + len p * (sRate (Writer_Monitor w) + J) <= maxInt64 ->
  exists w' T', writeLoop fuel w p n T = Ok (w', (n + len p, None), T').
Proof.
  induction fuel as [| fuel IH]; intros w p n T Rd Bl F SB Hn Hmax HT.
  - destruct p; [|cbn in F; lia]. exists w, T. cbn. rewrite Z.add_0_r. reflexivity.
  - destruct p as [| b p'].
    { exists w, T. cbn. rewrite Z.add_0_r. reflexivity. }
    assert (Lp : 1 <= len (b :: p')) by (rewrite len_cons; pose (len_nonneg p'); lia).
    assert (F' : (length p' <= fuel)%nat) by (cbn [length] in F; lia).
    pose proof (Sleep_spec 0 0) as J0.
    assert (R0 : 0 < sRate (Writer_Monitor w)) by apply Rd.
    destruct (Limit_writer (S fuel) (Writer_Monitor w) (len (b :: p')) (Rate w) T Rd Lp
                ltac:(nia) ltac:(lia))
      as (m' & lim & T' & E & Hl & Rd' & HT' & SR & SB').
    cbn [writeLoop]. rewrite Bl, E. cbn [bind].
    assert (C1 : (lim <? 0) || (len (b :: p') <? lim) = false)
      by (apply orb_false_intro; apply Z.ltb_ge; lia).
    rewrite C1.
    assert (Ls : len (firstn (Z.to_nat lim) (b :: p')) = lim).
    { unfold len. rewrite length_firstn. unfold len in Hl. lia. }
    destruct (firstn (Z.to_nat lim) (b :: p')) as [| b' s'] eqn:Fs.
    { unfold len in Ls. cbn [length] in Ls. lia. }
    pose proof (Write_all (Writer_Writer w) (b' :: s')) as Wa.
    destruct (io_Write (Writer_Writer w) (b' :: s')) as [u [c err]].
    cbn [snd] in Wa. injection Wa as -> ->. rewrite Ls.
    rewrite C1.
    pose proof (update_ready m' lim T' Rd' ltac:(lia) ltac:(lia)) as Up.
    cbv zeta in Up. destruct Up as (Rd'' & SR'' & _ & SB'' & _).
    rewrite (wrap64_id (n + lim)) by (unfold minInt64, maxInt64 in *; lia).
    assert (Lk : len (skipn (Z.to_nat lim) (b :: p')) = len (b :: p') - lim).
    { unfold len. rewrite length_skipn. unfold len in Hl. lia. }
    destruct (IH (mkWriter u (fst (Update m' lim T')) (Rate w) true)
                (skipn (Z.to_nat lim) (b :: p')) (n + lim) T')
      as (w' & T'' & E').
    + exact Rd''.
    + reflexivity.
    + rewrite length_skipn. cbn [length].
      destruct Hl as [Hl _]. clear - Hl F'. lia.
    + cbn [Writer_Monitor]. unfold Update. cbn [fst]. rewrite Lk.
      clear - SB SB' SB''. lia.
    + clear - Hn Hl. lia.
    + rewrite Lk. clear - Hmax. lia.
    + cbn [Writer_Monitor]. unfold Update. cbn [fst]. rewrite Lk, SR'', SR.
      clear - HT HT' Hl R0 J0. nia.
    + exists w', T''. rewrite E', Lk.
      replace (n + lim + (len (b :: p') - lim)) with (n + len (b :: p'))
        by (clear; lia).
      reflexivity.
Qed.

(** [clockRound] returns a multiple of [clockRate]. *)
Lemma clockRound_tick (d : Z) : clockRound d mod clockRate = 0.
Proof.
  unfold clockRound. set (x := wrap64 (d + Z.shiftr clockRate 1)).
  pose proof (wrap64_range (d + Z.shiftr clockRate 1)) as Rx. fold x in Rx.
  pose proof clockRate_pos as P.
  assert (B : minInt64 <= Z.quot x clockRate * clockRate <= maxInt64).
  { rewrite Z.mul_comm. destruct (Z.le_gt_cases 0 x) as [H | H].
    - pose proof (Z.mul_quot_le x clockRate H ltac:(lia)).
      unfold minInt64 in *. lia.
    - pose proof (Z.mul_quot_ge x clockRate ltac:(lia) ltac:(lia)).
      unfold maxInt64 in *. lia. }
  rewrite wrap64_id by assumption. apply Z.mod_mul. lia.
Qed.

(** [New] makes a monitor that is [ready]. *)
Lemma New_ready (sampleRate windowSize T : Z) :
  czero <= T <= maxInt64 -> ready (New czero sampleRate windowSize T) T.
Proof.
  intros HT. pose proof (clock_tick T HT) as [K1 K2].
  unfold ready, New. cbn [sRate sLast sBytes].
  pose proof (clockRound_tick sampleRate) as CT.
  destruct (clockRound sampleRate <=? 0) eqn:E.
  - repeat split; first [assumption | reflexivity | lia].
  - repeat split; first [assumption | lia].
Qed.

End Blocking.

(** * A caller that blocks on a shared monitor *)

Section SharedBlocking.

Variable czero : Z.
Variable Exp : float -> float.
Variable Sleep : Z -> Z -> Z.
Variable J : Z.
Variable Others : Z -> Z -> list (Z * call).

Hypothesis czero_tick : 0 <= czero /\ czero mod clockRate = 0.
Hypothesis Sleep_spec : forall T d : Z, T + d <= Sleep T d <= T + d + J.

(** The other goroutines make their calls in the order of their times,
    while the caller is without the lock, and transfer no bytes. *)
Hypothesis Others_scheduled : forall T T' : Z, scheduled T T' (Others T T').
Hypothesis Others_quiet : forall T T' : Z, Forall quiet (Others T T').

Local Abbreviation clock := (clock czero).
Local Abbreviation update := (update czero Exp).
Local Abbreviation Done := (Done czero Exp).
Local Abbreviation step := (step czero Exp).
Local Abbreviation run := (run czero Exp).
Local Abbreviation rollover := (rollover Exp).
Local Abbreviation sampleDone := (sampleDone czero).
Local Abbreviation ready := (ready czero).
Local Abbreviation Lock := (Lock czero Exp Others).
Local Abbreviation waitLoop_shared := (waitLoop_shared czero Exp Sleep Others).
Local Abbreviation waitNextSample_shared :=
  (waitNextSample_shared czero Exp Sleep Others).
Local Abbreviation limitLoop_shared := (limitLoop_shared czero Exp Sleep Others).
Local Abbreviation Limit_shared := (Limit_shared czero Exp Sleep Others).
Local Abbreviation Update_shared := (Update_shared czero Exp Others).

Lemma ready_later (m : Monitor) (T T' : Z) :
  ready m T -> T <= T' <= maxInt64 -> ready m T'.
Proof.
  intros (HT & R0 & R1 & L1 & L2 & S) H.
  pose proof (clock_mono czero czero_tick T T' ltac:(lia) H).
  unfold ready. repeat split; first [assumption | lia].
Qed.

Lemma passed_refl (m : Monitor) : passed m m.
Proof.
  unfold passed. split; [reflexivity|]. split; [lia|].
  intros A. split; [exact A|]. left. split; reflexivity.
Qed.

Lemma passed_trans (m1 m2 m3 : Monitor) :
  0 <= sRate m1 -> passed m1 m2 -> passed m2 m3 -> passed m1 m3.
Proof.
  intros R (S12 & B12 & P12) (S23 & B23 & P23).
  unfold passed. split; [congruence|]. split; [lia|].
  intros A3. destruct (P23 A3) as [A2 C23]. destruct (P12 A2) as [A1 C12].
  split; [exact A1|].
  destruct C12 as [[L12 E12] | [L12 E12]], C23 as [[L23 E23] | [L23 E23]].
  - left. split; congruence.
  - right. split; [|exact E23]. rewrite <- L12, <- S12. exact L23.
  - right. split; [|congruence]. rewrite L23. exact L12.
  - right. split; [|exact E23]. rewrite S12 in L23. lia.
Qed.

(** An [update(0)] that finds the sample done starts the next one. *)
Lemma update_rolls (m : Monitor) (T : Z) :
  ready m T -> active m = true -> sLast m + sRate m <= clock T ->
  fst (update m 0 T) = rollover m (clock T).
Proof.
  intros (HT & R0 & R1 & L1 & L2 & S) A D.
  pose proof (clock_tick czero czero_tick T HT) as [K1 K2].
  rewrite update_active by assumption. cbv zeta. cbn [fst].
  rewrite Z.add_0_r, (wrap64_id (sBytes m)), set_sBytes_same
    by (unfold minInt64, maxInt64 in *; lia).
  rewrite (wrap64_id (clock T - sLast m)) by (unfold minInt64, maxInt64 in *; lia).
  assert (E : (sRate m <=? clock T - sLast m) = true) by (apply Z.leb_le; lia).
  rewrite E. reflexivity.
Qed.

Lemma update_passed (m : Monitor) (T : Z) :
  ready m T ->
  let m' := fst (update m 0 T) in ready m' T /\ passed m m'.
Proof.
  intros Rd. cbv zeta.
  assert (S0 : 0 <= sBytes m <= maxInt64) by apply Rd.
  pose proof (update_ready czero Exp czero_tick m 0 T Rd ltac:(lia) ltac:(lia)) as U.
  cbv zeta in U. destruct U as (Rd1 & SR1 & A1 & SB1 & SL1).
  split; [exact Rd1|].
  destruct Rd as (HT & R0 & R1 & L1 & L2 & S).
  pose proof (clock_tick czero czero_tick T HT) as [K1 K2].
  destruct (active m) eqn:A.
  - rewrite update_active by assumption. cbv zeta. cbn [fst].
    rewrite Z.add_0_r, (wrap64_id (sBytes m)), set_sBytes_same
      by (unfold minInt64, maxInt64 in *; lia).
    rewrite (wrap64_id (clock T - sLast m)) by (unfold minInt64, maxInt64 in *; lia).
    destruct (sRate m <=? clock T - sLast m) eqn:E.
    + apply Z.leb_le in E. unfold passed, rollover. cbn [sRate sBytes sLast active].
      split; [reflexivity|]. split; [lia|]. intros _. split; [exact A|].
      right. split; lia.
    + apply passed_refl.
  - rewrite update_inactive by assumption. apply passed_refl.
Qed.

Lemma Done_passed (m : Monitor) (T : Z) :
  ready m T ->
  let m' := fst (Done m T) in ready m' T /\ passed m m'.
Proof.
  intros Rd. cbv zeta.
  pose proof (update_passed m T Rd) as U. cbv zeta in U.
  destruct U as [Rd1 (SR1 & SB1 & P1)].
  assert (Now : snd (update m 0 T) = clock T \/ snd (update m 0 T) = 0).
  { destruct (active m) eqn:A.
    - left. apply update_now. exact A.
    - right. rewrite update_inactive by assumption. reflexivity. }
  unfold Done. destruct (update m 0 T) as [m1 now]. cbn [fst snd] in *.
  destruct Rd1 as (HT & R0 & R1 & L1 & L2 & S).
  pose proof (clock_tick czero czero_tick T HT) as [K1 K2].
  assert (Hnow : now mod clockRate = 0 /\ 0 <= now <= clock T).
  { destruct Now as [-> | ->]; [split; [assumption | lia] | split; [reflexivity | lia]]. }
  destruct (0 <? sBytes m1) eqn:E.
  - unfold ready, passed, reset, set_active. cbn [sRate sLast sBytes active].
    split.
    + repeat split; first [assumption | lia].
    + split; [assumption|]. split; [lia|]. intros C. discriminate.
  - unfold ready, passed, set_active. cbn [sRate sLast sBytes active].
    split.
    + repeat split; first [assumption | lia].
    + split; [assumption|]. split; [lia|]. intros C. discriminate.
Qed.

Lemma step_passed (m : Monitor) (c : Z * call) :
  ready m (fst c) -> quiet c ->
  ready (step m c) (fst c) /\ passed m (step m c).
Proof.
  destruct c as [t c]. cbn [fst]. intros Rd Q.
  destruct c as [n | | want rate |]; unfold step.
  - unfold quiet in Q. cbn [snd] in Q. subst n. unfold Update. cbn [fst].
    apply update_passed. exact Rd.
  - unfold Monitor_Status. cbn [fst]. apply update_passed. exact Rd.
  - rewrite Limit_nonblocking. destruct ((want <? 1) || (rate <? 1)).
    + split; [exact Rd | apply passed_refl].
    + cbv zeta. apply update_passed. exact Rd.
  - apply Done_passed. exact Rd.
Qed.

(** The monitor after the calls of the other goroutines. *)
Lemma run_passed (T' : Z) (tr : list (Z * call)) :
  forall (m : Monitor) (T : Z),
  T <= T' <= maxInt64 -> scheduled T T' tr -> Forall quiet tr ->
  ready m T ->
  ready (run m tr) T' /\ passed m (run m tr).
Proof.
  induction tr as [| c tr IH]; intros m T HT Sc Q Rd.
  - split; [apply (ready_later m T T' Rd HT) | apply passed_refl].
  - destruct Sc as [Hc Sc]. inversion Q as [| ? ? Qc Qtr]; subst.
    pose proof (ready_later m T (fst c) Rd ltac:(lia)) as Rdc.
    destruct (step_passed m c Rdc Qc) as [Rd1 P1].
    destruct (IH (step m c) (fst c) ltac:(lia) Sc Qtr Rd1) as [Rd2 P2].
    unfold run in *. cbn [fold_left]. split; [exact Rd2|].
    apply (passed_trans m (step m c)); [|assumption|assumption].
    destruct Rd as (_ & R0 & _). lia.
Qed.

Lemma Lock_passed (m : Monitor) (T T' : Z) :
  T <= T' <= maxInt64 -> ready m T ->
  ready (Lock m T T') T' /\ passed m (Lock m T T').
Proof.
  intros HT Rd. unfold Lock.
  apply (run_passed T' (Others T T') m T HT (Others_scheduled T T')
           (Others_quiet T T') Rd).
Qed.

Lemma waitLoop_shared_exit (fuel : nat) (current : Z) (m : Monitor) (now T : Z) :
  (sLast m =? current) && active m = false ->
  waitLoop_shared fuel current m now T = Ok (m, now, T).
Proof. intros H. destruct fuel; cbn [waitLoop_shared]; rewrite H; reflexivity. Qed.

Lemma limitLoop_shared_exit (fuel : nat) (limit : Z) (m : Monitor) (now T : Z) :
  (limit <=? sBytes m) && active m = false ->
  limitLoop_shared fuel limit m now T = Ok (m, now, T).
Proof. intros H. destruct fuel; cbn [limitLoop_shared]; rewrite H; reflexivity. Qed.

(** One sleep of [waitNextSample] is enough: when the caller has the lock
    again the sample is over, so that its [update] starts the next one
    unless another goroutine did, or ended the transfer. *)
Lemma wait_shared (fuel : nat) (m : Monitor) (T : Z) :
  ready m T -> active m = true -> sampleDone m T = false ->
  T + sRate m + J <= maxInt64 ->
  exists m' now' T',
    waitNextSample_shared (S fuel) m (clock T) T = Ok (m', now', T') /\
    ready m' T' /\ T + minWait <= T' <= T + sRate m + J /\
    sLast m + sRate m <= clock T' /\
    sRate m' = sRate m /\ sBytes m' <= sBytes m /\
    (active m' = true -> sLast m + sRate m <= sLast m' /\ sBytes m' = 0).
Proof.
  intros Rd A D Hmax.
  pose proof Rd as (HT & R0 & R1 & L1 & L2 & S).
  destruct czero_tick as [C0 C1].
  pose proof (clock_tick czero czero_tick T HT) as [K1 K2].
  unfold sampleDone in D. rewrite A in D. cbn [andb] in D.
  rewrite (wrap64_id (clock T - sLast m)) in D
    by (unfold minInt64, maxInt64 in *; lia).
  apply Z.leb_gt in D.
  set (d := sLast m + sRate m - clock T) in *.
  assert (Hd : clockRate <= d <= sRate m).
  { split; [|unfold d; lia]. apply tick_pos; [|unfold d; lia].
    unfold d. rewrite Zminus_mod, Z.add_mod, L1, R1, K1 by (pose clockRate_pos; lia).
    reflexivity. }
  pose proof (Sleep_spec T d) as Sl.
  set (T' := Sleep T d) in *.
  assert (HT' : czero <= T' <= maxInt64) by lia.
  assert (Reach : sLast m + sRate m <= clock T').
  { apply (clock_reaches czero czero_tick); [assumption | | unfold d in *; lia].
    rewrite Z.add_mod, L1, R1 by (pose clockRate_pos; lia). reflexivity. }
  destruct (Lock_passed m T T' ltac:(lia) Rd) as [Rd1 (SR1 & SB1 & P1)].
  set (m1 := Lock m T T') in *.
  pose proof (update_passed m1 T' Rd1) as U. cbv zeta in U.
  destruct U as [Rd2 (SR2 & SB2 & P2)].
  assert (Fin : active (fst (update m1 0 T')) = true ->
                sLast m + sRate m <= sLast (fst (update m1 0 T')) /\
                sBytes (fst (update m1 0 T')) = 0).
  { intros A2. destruct (P2 A2) as [A1 C2]. destruct (P1 A1) as [_ C1'].
    destruct C1' as [[E1 E2] | [E1 E2]].
    - rewrite update_rolls by (first [assumption | rewrite E1, SR1; exact Reach]).
      unfold rollover. cbn [sLast sBytes]. split; [exact Reach | reflexivity].
    - destruct C2 as [[F1 F2] | [F1 F2]]; [split; congruence|].
      split; [|exact F2]. rewrite SR1 in F1. lia. }
  exists (fst (update m1 0 T')), (snd (update m1 0 T')), T'.
  split.
  - unfold waitNextSample_shared. cbn [waitLoop_shared].
    rewrite Z.eqb_refl, A. cbn [andb].
    rewrite (wrap64_id (sLast m + sRate m)) by (unfold minInt64, maxInt64 in *; lia).
    rewrite (wrap64_id (sLast m + sRate m - clock T))
      by (unfold minInt64, maxInt64 in *; lia).
    fold d.
    assert (E : (d <? minWait) = false).
    { apply Z.ltb_ge. unfold minWait, Millisecond.
      unfold clockRate, Millisecond in Hd. lia. }
    rewrite E. fold T'. fold m1.
    destruct (update m1 0 T') as [m2 now2]. cbn [fst snd] in *.
    apply waitLoop_shared_exit.
    destruct (active m2) eqn:A2; [|apply andb_false_r].
    destruct (Fin eq_refl) as [F1 _].
    assert (N : (sLast m2 =? sLast m) = false) by (apply Z.eqb_neq; lia).
    rewrite N. reflexivity.
  - split; [exact Rd2|]. split.
    { unfold minWait, Millisecond. unfold clockRate, Millisecond in Hd. lia. }
    split; [exact Reach|]. split; [congruence|]. split; [lia | exact Fin].
Qed.

(** The allowance when the transfer is over or less than the budget is
    pending. *)
Lemma allowance_exact (B want : Z) (m : Monitor) :
  1 <= want -> 0 <= sBytes m <= maxInt64 -> 1 <= B <= maxInt64 ->
  (active m = true -> sBytes m < B) ->
  let limit := wrap64 (B - sBytes m) in
  let limit := if (want <? limit) || negb (active m) then want else limit in
  let limit := if limit <? 0 then 0 else limit in
  limit = (if active m then Z.min want (B - sBytes m) else want) /\
  1 <= limit <= want.
Proof.
  intros W S HB Free. cbv zeta.
  rewrite (wrap64_id (B - sBytes m)) by (unfold minInt64, maxInt64 in *; lia).
  destruct (active m); cbn [negb]; rewrite ?orb_true_r, ?orb_false_r.
  - specialize (Free eq_refl). destruct (want <? B - sBytes m) eqn:E1.
    + destruct (want <? 0) eqn:E2; lia.
    + destruct (B - sBytes m <? 0) eqn:E2; lia.
  - destruct (want <? 0) eqn:E2; lia.
Qed.

Lemma sampleLimit_sRate_eq (m m' : Monitor) (rate : Z) :
  sRate m' = sRate m -> sampleLimit m' rate = sampleLimit m rate.
Proof. intros E. unfold sampleLimit. rewrite E. reflexivity. Qed.

(** A blocking [Limit] on a shared monitor: with [m1] the monitor as the
    [update(0)] of the call leaves it, the call returns at once when less
    than the budget is pending or the transfer is over, and else after one
    sleep that lasts to the end of the sample. *)
Lemma Limit_shared_blocking (fuel : nat) (m : Monitor) (want rate T : Z) :
  ready m T -> 1 <= want -> 1 <= rate ->
  T + sRate m + J <= maxInt64 -> (1 <= fuel)%nat ->
  let m1 := fst (update (Lock m T T) 0 T) in
  let B := sampleLimit m rate in
  exists m' n T',
    Limit_shared fuel m want rate true T = Ok (m', n, T') /\
    1 <= n <= want /\
    n = (if active m' then Z.min want (B - sBytes m') else want) /\
    ready m' T' /\ T <= T' <= T + sRate m + J /\
    sRate m' = sRate m /\ sBytes m' <= sBytes m /\
    (if (B <=? sBytes m1) && active m1
     then T + minWait <= T' /\ sLast m1 + sRate m <= clock T' /\
          (active m' = true ->
           sLast m1 + sRate m <= sLast m' /\ sBytes m' = 0)
     else T' = T /\ m' = m1).
Proof.
  intros Rd W R Hmax F. cbv zeta.
  destruct fuel as [| fuel]; [lia|].
  pose proof (sampleLimit_range m rate) as HB.
  assert (G : (want <? 1) || (rate <? 1) = false).
  { apply orb_false_intro; apply Z.ltb_ge; lia. }
  unfold Limit_shared. rewrite G. cbv zeta.
  assert (HT : czero <= T <= maxInt64) by apply Rd.
  assert (R0 : 0 < sRate m) by apply Rd.
  pose proof (Sleep_spec 0 0) as J0.
  destruct (Lock_passed m T T ltac:(lia) Rd) as [Rd0 (SR0 & SB0 & _)].
  set (m0 := Lock m T T) in *.
  rewrite (sampleLimit_sRate_eq m m0 rate SR0).
  set (B := sampleLimit m rate) in *.
  pose proof (update_passed m0 T Rd0) as U. cbv zeta in U.
  destruct U as [Rd1 (SR1 & SB1 & P1)].
  pose proof (update_settled czero Exp m0 0 T Rd0) as St1.
  pose proof (update_now czero Exp m0 0 T) as Now.
  destruct (update m0 0 T) as [m1 now]. cbn [fst snd] in *.
  assert (S1 : 0 <= sBytes m1 <= maxInt64) by apply Rd1.
  destruct ((B <=? sBytes m1) && active m1) eqn:Full.
  - (* the budget is used up: wait for the next sample *)
    apply andb_prop in Full. destruct Full as [Full A1].
    destruct (P1 A1) as [A0 _]. rewrite (Now A0).
    cbn [limitLoop_shared]. rewrite Full, A1. cbn [andb].
    destruct (wait_shared fuel m1 T Rd1 A1 St1 ltac:(lia))
      as (m2 & now2 & T' & Wt & Rd2 & HT' & Reach & SR2 & SB2 & Fin).
    rewrite Wt. cbn [bind].
    assert (S2 : 0 <= sBytes m2 <= maxInt64) by apply Rd2.
    assert (Free : active m2 = true -> sBytes m2 < B).
    { intros A2. destruct (Fin A2) as [_ E]. lia. }
    rewrite limitLoop_shared_exit.
    2:{ destruct (active m2); [|apply andb_false_r].
        specialize (Free eq_refl).
        replace (B <=? sBytes m2) with false by (symmetry; apply Z.leb_gt; lia).
        reflexivity. }
    cbn [bind].
    pose proof (allowance_exact B want m2 W S2 HB Free) as P.
    cbv zeta in P. destruct P as [P1' P2'].
    eexists _, _, _. split; [reflexivity|].
    split; [exact P2'|]. split; [exact P1'|]. split; [exact Rd2|].
    assert (MW : 0 < minWait) by reflexivity.
    rewrite SR1, SR0 in Reach, Fin, HT'.
    split; [lia|]. split; [congruence|]. split; [lia|].
    split; [lia|]. split; [lia | exact Fin].
  - (* some of the budget is left, or the transfer is over *)
    assert (Now' : limitLoop_shared (S fuel) B m1 now T = Ok (m1, now, T))
      by (apply limitLoop_shared_exit; exact Full).
    rewrite Now'. cbn [bind].
    assert (Free : active m1 = true -> sBytes m1 < B).
    { intros A1. rewrite A1, andb_true_r in Full. apply Z.leb_gt in Full. exact Full. }
    pose proof (allowance_exact B want m1 W S1 HB Free) as P.
    cbv zeta in P. destruct P as [P1' P2'].
    eexists _, _, _. split; [reflexivity|].
    split; [exact P2'|]. split; [exact P1'|]. split; [exact Rd1|].
    split; [lia|]. split; [congruence|]. split; [lia|].
    split; reflexivity.
Qed.

(** ** Writer.Write *)

Context {U : Type} `{W : io_Writer U}.

(** The underlying stream takes all it is given and reports no error. *)
Hypothesis Write_all :
  forall (u : U) (s : list Byte.byte), snd (io_Write u s) = (len s, None).

Local Abbreviation writeLoop_shared :=
  (@writeLoop_shared czero Exp Sleep Others U W).
Local Abbreviation Write_shared := (@Write_shared czero Exp Sleep Others U W).

Lemma Limit_shared_writer (fuel : nat) (m : Monitor) (want rate T : Z) :
  ready m T -> 1 <= want ->
  T + sRate m + J <= maxInt64 -> (1 <= fuel)%nat ->
  exists m' n T',
    Limit_shared fuel m want rate true T = Ok (m', n, T') /\
    1 <= n <= want /\
    ready m' T' /\ T <= T' <= T + sRate m + J /\
    sRate m' = sRate m /\ sBytes m' <= sBytes m.
Proof.
  intros Rd Hw Hmax F. destruct (rate <? 1) eqn:R.
  - exists m, want, T. unfold Limit_shared. rewrite R, orb_true_r.
    pose proof (Sleep_spec 0 0). destruct Rd as (HT & R0 & Rd').
    split; [reflexivity|]. split; [lia|]. split; [unfold ready; auto|].
    repeat split; lia.
  - apply Z.ltb_ge in R.
    pose proof (Limit_shared_blocking fuel m want rate T Rd Hw R Hmax F) as L.
    cbv zeta in L.
    destruct L as (m' & n & T' & E & Hn & _ & Rd' & HT' & SR & SB & _).
    exists m', n, T'. auto 10.
Qed.

Lemma Update_shared_ready (m : Monitor) (n T : Z) :
  ready m T -> 0 <= n -> sBytes m + n <= maxInt64 ->
  let m' := fst (Update_shared m n T) in
  ready m' T /\ sRate m' = sRate m /\ sBytes m' <= sBytes m + n.
Proof.
  intros Rd Hn Hmax. cbv zeta. unfold Update_shared. cbn [fst].
  assert (HT : czero <= T <= maxInt64) by apply Rd.
  destruct (Lock_passed m T T ltac:(lia) Rd) as [Rd0 (SR0 & SB0 & _)].
  pose proof (update_ready czero Exp czero_tick (Lock m T T) n T Rd0 Hn ltac:(lia)) as Up.
  cbv zeta in Up. destruct Up as (Rd1 & SR1 & _ & SB1 & _).
  split; [exact Rd1|]. split; [congruence | lia].
Qed.

Lemma writeLoop_shared_all (fuel : nat) :
  forall (w : Writer U) (p : list Byte.byte) (n T : Z),
  ready (Writer_Monitor w) T -> Block w = true ->
  (length p <= fuel)%nat ->
  sBytes (Writer_Monitor w) + len p <= maxInt64 ->
  0 <= n -> n + len p <= maxInt64 ->
  T + len p * (sRate (Writer_Monitor w) + J) <= maxInt64 ->
  exists w' T', writeLoop_shared fuel w p n T = Ok (w', (n + len p, None), T').
Proof.
  induction fuel as [| fuel IH]; intros w p n T Rd Bl F SB Hn Hmax HT.
  - destruct p; [|cbn in F; lia]. exists w, T. cbn. rewrite Z.add_0_r. reflexivity.
  - destruct p as [| b p'].
    { exists w, T. cbn. rewrite Z.add_0_r. reflexivity. }
    assert (Lp : 1 <= len (b :: p')) by (rewrite len_cons; pose (len_nonneg p'); lia).
    assert (F' : (length p' <= fuel)%nat) by (cbn [length] in F; lia).
    pose proof (Sleep_spec 0 0) as J0.
    assert (R0 : 0 < sRate (Writer_Monitor w)) by apply Rd.
    destruct (Limit_shared_writer (S fuel) (Writer_Monitor w) (len (b :: p')) (Rate w) T
                Rd Lp ltac:(nia) ltac:(lia))
      as (m' & lim & T' & E & Hl & Rd' & HT' & SR & SB').
    cbn [writeLoop_shared]. rewrite Bl, E. cbn [bind].
    assert (C1 : (lim <? 0) || (len (b :: p') <? lim) = false)
      by (apply orb_false_intro; apply Z.ltb_ge; lia).
    rewrite C1.
    assert (Ls : len (firstn (Z.to_nat lim) (b :: p')) = lim).
    { unfold len. rewrite length_firstn. unfold len in Hl. lia. }
    destruct (firstn (Z.to_nat lim) (b :: p')) as [| b' s'] eqn:Fs.
    { unfold len in Ls. cbn [length] in Ls. lia. }
    pose proof (Write_all (Writer_Writer w) (b' :: s')) as Wa.
    destruct (io_Write (Writer_Writer w) (b' :: s')) as [u [c err]].
    cbn [snd] in Wa. injection Wa as -> ->. rewrite Ls.
    rewrite C1.
    pose proof (Update_shared_ready m' lim T' Rd' ltac:(lia) ltac:(lia)) as Up.
    cbv zeta in Up. destruct Up as (Rd'' & SR'' & SB'').
    rewrite (wrap64_id (n + lim)) by (unfold minInt64, maxInt64 in *; lia).
    assert (Lk : len (skipn (Z.to_nat lim) (b :: p')) = len (b :: p') - lim).
    { unfold len. rewrite length_skipn. unfold len in Hl. lia. }
    destruct (IH (mkWriter u (fst (Update_shared m' lim T')) (Rate w) true)
                (skipn (Z.to_nat lim) (b :: p')) (n + lim) T')
      as (w' & T'' & E').
    + exact Rd''.
    + reflexivity.
    + rewrite length_skipn. cbn [length].
      destruct Hl as [Hl _]. clear - Hl F'. lia.
    + cbn [Writer_Monitor]. rewrite Lk.
      clear - SB SB' SB''. lia.
    + clear - Hn Hl. lia.
    + rewrite Lk. clear - Hmax. lia.
    + cbn [Writer_Monitor]. rewrite Lk, SR'', SR.
      clear - HT HT' Hl R0 J0. nia.
    + exists w', T''. rewrite E', Lk.
      replace (n + lim + (len (b :: p') - lim)) with (n + len (b :: p'))
        by (clear; lia).
      reflexivity.
Qed.

(** C9: with blocking enabled, [Writer.Write] never reports [ErrLimit].
    The monitor of the writer is as [New] and the methods leave it, and it
    may be shared: whenever the caller is without its lock, the other
    goroutines may read the status, ask for allowances and end the transfer
    with [Done]; they transfer no bytes. The stream takes all it is given
    without error, a sleep lasts at least the time asked for, and the time
    of the run stays within the range of [int64].

    Every [Limit(want, rate, true)] with [want >= 1] and [rate >= 1] then
    returns a strictly positive allowance [n]. With [m1] the monitor as the
    [update(0)] of the call leaves it and [B] the budget of a sample: if
    the transfer is active and [B <= m1.sBytes], the call sleeps, at least
    [minWait] and until the sample of [m1] is over, and when it returns
    either the transfer is no longer active, or a later sample is in
    progress with no bytes pending; else it returns at once and leaves
    [m1]. The allowance is [want] when the transfer is no longer active and
    else the smaller of [want] and what is left of the budget, so that
    [sBytes + n <= B]. And [Write(p)] returns [(len(p), nil)]. *)
Theorem C9_blocking_Write (fuel : nat) (w : Writer U) (p : list Byte.byte) (T : Z) :
  ready (Writer_Monitor w) T -> Block w = true ->
  sBytes (Writer_Monitor w) + len p <= maxInt64 ->
  T + (1 + len p) * (sRate (Writer_Monitor w) + J) <= maxInt64 ->
  (1 + length p <= fuel)%nat ->
  (forall want rate, 1 <= want -> 1 <= rate ->
     let m := Writer_Monitor w in
     let m1 := fst (update (Lock m T T) 0 T) in
     let B := sampleLimit m rate in
     exists m' n T',
       Limit_shared fuel m want rate true T = Ok (m', n, T') /\
       1 <= n <= want /\
       n = (if active m' then Z.min want (B - sBytes m') else want) /\
       (active m' = true -> sBytes m' + n <= B) /\
       (if (B <=? sBytes m1) && active m1
        then T + minWait <= T' /\ sLast m1 + sRate m <= clock T' /\
             (active m' = false \/
              sLast m1 + sRate m <= sLast m' /\ sBytes m' = 0)
        else T' = T /\ m' = m1)) /\
  (exists w' T', Write_shared fuel w p T = Ok (w', (len p, None), T')).
Proof.
  intros Rd Bl SB HT F.
  pose proof (Sleep_spec 0 0) as J0.
  assert (R0 : 0 < sRate (Writer_Monitor w)) by apply Rd.
  pose proof (len_nonneg p) as Lp.
  split.
  - intros want rate Hw Hr. cbv zeta.
    pose proof (Limit_shared_blocking fuel (Writer_Monitor w) want rate T Rd Hw Hr
                  ltac:(clear - HT Lp R0 J0; nia) ltac:(lia)) as L.
    cbv zeta in L.
    destruct L as (m' & n & T' & E & Hn & En & _ & _ & _ & _ & Wt).
    exists m', n, T'. split; [exact E|]. split; [exact Hn|]. split; [exact En|].
    split.
    { intros A. rewrite A in En. clear - En. lia. }
    destruct ((sampleLimit (Writer_Monitor w) rate <=? _) && _).
    + destruct Wt as (W1 & W2 & W3). split; [exact W1|]. split; [exact W2|].
      destruct (active m'); [right; apply W3; reflexivity | left; reflexivity].
    + exact Wt.
  - unfold Write_shared.
    destruct (writeLoop_shared_all fuel w p 0 T Rd Bl ltac:(lia) SB ltac:(lia)
                ltac:(clear - SB Rd; destruct Rd as (_ & _ & _ & _ & _ & S); lia)
                ltac:(clear - HT Lp R0 J0; nia))
      as (w' & T' & E).
    exists w', T'. exact E.
Qed.

End SharedBlocking.

(** ** A monitor that is not shared *)

(** When no other goroutine uses the monitor, the methods are those of the
    single caller. *)

Section Alone.

Variable czero : Z.
Variable Exp : float -> float.
Variable Sleep : Z -> Z -> Z.

Lemma waitLoop_alone (fuel : nat) :
  forall (current : Z) (m : Monitor) (now T : Z),
  waitLoop_shared czero Exp Sleep nobody fuel current m now T
  = waitLoop czero Exp Sleep fuel current m now T.
Proof.
  induction fuel as [| fuel IH]; intros current m now T; [reflexivity|].
  cbn [waitLoop_shared waitLoop]. destruct ((sLast m =? current) && active m);
    [|reflexivity].
  cbv zeta. unfold Lock, nobody, run. cbn [fold_left].
  destruct (update czero Exp m 0 _) as [m' now']. apply IH.
Qed.

Lemma limitLoop_alone (fuel : nat) :
  forall (limit : Z) (m : Monitor) (now T : Z),
  limitLoop_shared czero Exp Sleep nobody fuel limit m now T
  = limitLoop czero Exp Sleep fuel limit m now T.
Proof.
  induction fuel as [| fuel IH]; intros limit m now T; [reflexivity|].
  cbn [limitLoop_shared limitLoop]. destruct ((limit <=? sBytes m) && active m);
    [|reflexivity].
  unfold waitNextSample_shared, waitNextSample. rewrite waitLoop_alone.
  destruct (waitLoop czero Exp Sleep (S fuel) (sLast m) m now T) as [[[m' now'] T'] | |];
    [|reflexivity|reflexivity].
  cbn [bind]. apply IH.
Qed.

Lemma Limit_alone (fuel : nat) (m : Monitor) (want rate : Z) (block : bool) (T : Z) :
  Limit_shared czero Exp Sleep nobody fuel m want rate block T
  = Limit czero Exp Sleep fuel m want rate block T.
Proof.
  unfold Limit_shared, Limit. destruct ((want <? 1) || (rate <? 1)); [reflexivity|].
  cbv zeta. unfold Lock, nobody, run. cbn [fold_left].
  destruct (update czero Exp m 0 T) as [m' now'].
  destruct block; [rewrite limitLoop_alone|]; reflexivity.
Qed.

Lemma writeLoop_alone {U : Type} `{io_Writer U} (fuel : nat) :
  forall (w : Writer U) (p : list Byte.byte) (n T : Z),
  writeLoop_shared czero Exp Sleep nobody fuel w p n T
  = writeLoop czero Exp Sleep fuel w p n T.
Proof.
  induction fuel as [| fuel IH]; intros w p n T; [reflexivity|].
  cbn [writeLoop_shared writeLoop]. destruct p as [| b p']; [reflexivity|].
  rewrite Limit_alone.
  destruct (Limit czero Exp Sleep (S fuel) (Writer_Monitor w) (len (b :: p')) (Rate w)
              (Block w) T) as [[[m' lim] T'] | |]; [|reflexivity|reflexivity].
  cbn [bind]. destruct ((lim <? 0) || (len (b :: p') <? lim)); [reflexivity|].
  destruct (firstn (Z.to_nat lim) (b :: p')) as [| b' s']; [reflexivity|].
  destruct (io_Write (Writer_Writer w) (b' :: s')) as [u [c err]].
  unfold Update_shared, Update, Lock, nobody, run. cbn [fold_left].
  destruct ((c <? 0) || (len (b :: p') <? c)); [reflexivity|].
  destruct err; [reflexivity|]. apply IH.
Qed.

End Alone.

(** * The claims on concrete runs *)

Import Byte.

(** C1 as stated fails: after [Update(5)] on a new monitor, a [Status] taken
    within the same sample reports 0 bytes, not 5. *)
Lemma C1_counterexample :
  Bytes (snd (Monitor_Status 0 exp_series
                (run 0 exp_series scenarioA0 [(0, CUpdate 5)]) 0))
  <> transferred true [(0, CUpdate 5)].
Proof. vm_compute. discriminate. Qed.

Lemma C1_witness :
  let tr := [(0, CUpdate 5); (100 * Millisecond, CStatus);
             (100 * Millisecond, CUpdate 7)] in
  snd (Done 0 exp_series (run 0 exp_series scenarioA0 tr) (120 * Millisecond))
  = 12.
Proof.
  intros tr.
  refine (proj1 (C1_total_bytes 0 exp_series (100 * Millisecond) (1 * Second) 0
                   tr _ _) (120 * Millisecond)).
  - repeat constructor; unfold nonneg_call; cbn; lia.
  - vm_compute. discriminate.
Defined.

(** C2 as stated fails for a negative [want]: [Limit(-1, 10, false)]
    returns -1, which is not in [0, want]. *)
Lemma C2_counterexample :
  Limit 0 exp_series sleep_exact 0 scenarioA0 (-1) 10 false 0
  = Ok (scenarioA0, -1, 0) /\ ~ 0 <= -1.
Proof. split; [reflexivity | lia]. Qed.

Lemma C2_witness :
  exists m' n T',
    Limit 0 exp_series sleep_exact 0 scenarioA0 1000 10 false 0 = Ok (m', n, T')
    /\ 0 <= n <= 1000.
Proof.
  apply (C2_Limit_bounds 0 exp_series sleep_exact 0 scenarioA0 1000 10 0). lia.
Defined.

(** C3 as stated fails: two consecutive [Limit(1000, 100, false)] calls
    within one period, nothing being reported in between, return 10 bytes
    each, 20 in all, against a budget of 10. *)
Lemma C3_counterexample :
  within_period 0 scenarioA0 [(0, 1000); (0, 1000)] /\
  allowances 0 exp_series scenarioA0 100 [(0, 1000); (0, 1000)] = [10; 10] /\
  sampleLimit scenarioA0 100 = 10 /\
  sampleLimit scenarioA0 100
  < total (allowances 0 exp_series scenarioA0 100 [(0, 1000); (0, 1000)]).
Proof.
  split; [repeat constructor; cbn; lia|].
  split; [vm_compute; reflexivity|]. split; vm_compute; reflexivity.
Qed.

Lemma C3_witness :
  total (transfers 0 exp_series scenarioA0 100 [(0, 1000); (0, 1000)])
  <= sampleLimit scenarioA0 100.
Proof.
  refine (proj1 (C3_period_budget 0 exp_series scenarioA0 100
                   [(0, 1000); (0, 1000)] _ _ _ _)).
  - reflexivity.
  - lia.
  - cbn. unfold maxInt64. lia.
  - repeat constructor; cbn; lia.
Defined.

(** C4 as stated fails: with [math.Exp(-0.1)] the binary64 number next to
    exp(-0.1), the second sample of scenario A leaves [CurRate] at 9524,
    not 5476. *)
Lemma C4_counterexample :
  ~ (forall Exp : float -> float,
       Exp (-0x1.999999999999ap-4)%float = 0x1.cf46d99d52b3ap-1%float ->
       CurRate (scenarioA2_Status Exp) = 5476).
Proof.
  intros H. specialize (H exp_series ltac:(vm_compute; reflexivity)).
  vm_compute in H. discriminate.
Qed.

Lemma C4_witness :
  rSample (fst (update 0 exp_series scenarioA0 1000 (100 * Millisecond)))
  = 10000%float /\
  CurRate (scenarioA2_Status exp_series) = 9524.
Proof.
  pose proof (C4_rollover_rates 0 exp_series scenarioA0 1000 (100 * Millisecond)
                ltac:(reflexivity) ltac:(vm_compute; discriminate)) as H.
  cbv zeta in H. destruct H as ((H1 & _) & _ & H3).
  split.
  - rewrite H1. vm_compute. reflexivity.
  - apply H3. vm_compute. reflexivity.
Defined.

(** C5 as stated fails: [Done] called 20 ms into a sample with 1000 bytes
    pending counts the bytes and the sample, but leaves [rSample], [rEMA]
    and [rPeak] at 0; the rollover of the specification would have set them
    to 50000. *)
Lemma C5_counterexample :
  let m' := fst (Done 0 exp_series pending1000 (20 * Millisecond)) in
  bytes m' = 1000 /\ samples m' = 1 /\
  rSample m' = 0%float /\ rEMA m' = 0%float /\ rPeak m' = 0%float /\
  rPeak (Done_rollover 0 exp_series pending1000 (20 * Millisecond)) = 50000%float /\
  m' <> Done_rollover 0 exp_series pending1000 (20 * Millisecond).
Proof.
  vm_compute. repeat split; try reflexivity. discriminate.
Qed.

Lemma C5_witness :
  let '(m', n) := Done 0 exp_series pending1000 (20 * Millisecond) in
  n = 1000 /\ active m' = false /\ rPeak m' = rPeak pending1000.
Proof.
  pose proof (C5_Done_pending 0 exp_series pending1000 (20 * Millisecond)
                ltac:(reflexivity) ltac:(vm_compute; reflexivity)
                ltac:(vm_compute; discriminate)
                ltac:(vm_compute; discriminate)) as H.
  destruct (Done 0 exp_series pending1000 (20 * Millisecond)) as [m' n].
  destruct H as (A & N & B & _ & _ & _ & R).
  change (sRate pending1000 <=? wrap64 (clock 0 (20 * Millisecond) - sLast pending1000))
    with false in R.
  destruct R as (_ & _ & P).
  split; [rewrite N, B; reflexivity | split; assumption].
Defined.

Lemma ends_transfer_scheduled (T T' : Z) : scheduled T T' (ends_transfer T T').
Proof.
  unfold ends_transfer. destruct (T <? T') eqn:E; [|exact I].
  apply Z.ltb_lt in E. cbn. split; [lia | exact I].
Qed.

Lemma ends_transfer_quiet (T T' : Z) : Forall quiet (ends_transfer T T').
Proof.
  unfold ends_transfer. destruct (T <? T'); constructor; [exact I | constructor].
Qed.

(** A writer at 10 bytes per second may write one byte per sample. Of three
    bytes the first is written at once; the [Limit] for the other two
    sleeps, the transfer is ended meanwhile, and they are written with no
    limit when the caller runs again. *)
Lemma C9_witness :
  exists w' T',
    Write_shared 0 exp_series sleep_exact ends_transfer 4 (NewWriter 0 [] 10 0)
      [x00; x01; x02] 0
    = Ok (w', (3, None), T').
Proof.
  refine (proj2 (C9_blocking_Write 0 exp_series sleep_exact 0 ends_transfer _ _
                   ends_transfer_scheduled ends_transfer_quiet _ 4
                   (NewWriter 0 [] 10 0) [x00; x01; x02] 0 _ _ _ _ _)).
  - split; [lia | reflexivity].
  - intros T d. unfold sleep_exact. lia.
  - intros u s. reflexivity.
  - apply New_ready; [split; [lia | reflexivity] | unfold maxInt64; lia].
  - reflexivity.
  - cbn. unfold maxInt64. lia.
  - cbn. unfold maxInt64. lia.
  - cbn. lia.
Defined.

(** The second [Limit] of that run: one byte is pending, the budget of the
    sample; the call sleeps to the end of the sample, 100 ms, and returns
    all that is wanted since the transfer is over. *)
Lemma Limit_released_by_Done :
  let m := fst (Update 0 exp_series (New 0 0 0 0) 1 0) in
  match Limit_shared 0 exp_series sleep_exact ends_transfer 1 m 2 10 true 0 with
  | Ok (m', n, T') => active m' = false /\ n = 2 /\ T' = 100 * Millisecond
  | _ => False
  end.
Proof. vm_compute. auto. Qed.

(** The same call when nobody else uses the monitor: it returns after the
    rollover at 100 ms, with the budget of the new sample. *)
Lemma Limit_released_by_rollover :
  let m := fst (Update 0 exp_series (New 0 0 0 0) 1 0) in
  match Limit_shared 0 exp_series sleep_exact nobody 1 m 2 10 true 0 with
  | Ok (m', n, T') =>
      active m' = true /\ sBytes m' = 0 /\ sLast m' = 100 * Millisecond /\
      n = 1 /\ T' = 100 * Millisecond
  | _ => False
  end.
Proof. vm_compute. auto 6. Qed.

Lemma C10_witness :
  let s := snd (Monitor_Status 0 exp_series (scenarioA2 exp_series)
                  (200 * Millisecond)) in
  let x := (float64 (Bytes s) / Seconds (Duration s))%float in
  AvgRate s = round x /\ round x = 7500.
Proof.
  pose proof (C10_AvgRate 0 exp_series (scenarioA2 exp_series)
                (200 * Millisecond)) as H.
  cbv zeta in *. destruct H as (H1 & _ & H3). split.
  - apply H1. vm_compute. reflexivity.
  - refine (eq_trans (H3 (Qmake (7500 * 2 ^ 40) (2 ^ 40)) _ _ _) _).
    + vm_compute. reflexivity.
    + vm_compute. discriminate.
    + vm_compute. discriminate.
    + vm_compute. reflexivity.
Defined.

(** * More of the package *)

(** ** Rounding and the clock *)

(** X1: [clockRound] rounds a duration [d >= 0] to the nearest multiple of
    [clockRate], a half going up: the result is a multiple of 20 ms with
    [d - 10 ms < clockRound d <= d + 10 ms]. *)
Theorem X1_clockRound_nearest (d : Z) :
  0 <= d <= maxInt64 - clockRate / 2 ->
  clockRound d mod clockRate = 0 /\
  d - clockRate / 2 < clockRound d <= d + clockRate / 2.
Proof.
  intros H. split; [apply clockRound_tick|].
  unfold clockRound. change (Z.shiftr clockRate 1) with (clockRate / 2).
  change (clockRate / 2) with 10000000 in *. change clockRate with 20000000.
  rewrite (wrap64_id (d + 10000000)) by (unfold minInt64, maxInt64 in *; lia).
  rewrite Z.quot_div_nonneg by lia.
  pose proof (Z.mul_div_le (d + 10000000) 20000000 ltac:(lia)) as L.
  pose proof (Z.mod_pos_bound (d + 10000000) 20000000 ltac:(lia)) as M.
  pose proof (Z.div_mod (d + 10000000) 20000000 ltac:(lia)) as E.
  rewrite wrap64_id by (unfold minInt64, maxInt64 in *; lia). lia.
Qed.

Lemma X1_witness :
  clockRound (95 * Millisecond) mod clockRate = 0 /\
  95 * Millisecond - clockRate / 2 < clockRound (95 * Millisecond)
  <= 95 * Millisecond + clockRate / 2.
Proof.
  apply (X1_clockRound_nearest (95 * Millisecond)). vm_compute.
  split; discriminate.
Defined.

(** X2: on a negative number [round] does not round to the nearest integer
    but down, toward minus infinity (hence "non-negative values only"):
    for an exact value [q < 0] that fits an [int64], [round] is the floor
    of [q]; so [round(-0.5) = -1]. *)
Theorem X2_round_negative (x : float) (q : Q) :
  exact x = RFin q -> (q < 0)%Q -> minInt64 <= Qfloor q ->
  round x = Qfloor q.
Proof.
  intros E Hq Hmin. unfold round. rewrite E. cbn [Modf ge_half Ceil Floor int64_of].
  assert (T : Qtrunc q = Qceiling q).
  { unfold Qtrunc. destruct (Qle_bool 0 q) eqn:B; [|reflexivity].
    apply Qle_bool_iff in B. lra. }
  rewrite T.
  assert (G : Qle_bool (1 # 2) (q - inject_Z (Qceiling q)) = false).
  { destruct (Qle_bool (1 # 2) (q - inject_Z (Qceiling q))) eqn:B; [|reflexivity].
    apply Qle_bool_iff in B. pose proof (Qle_ceiling q). lra. }
  rewrite G, Qtrunc_Z.
  assert (P : Qfloor q <= 0).
  { change 0 with (Qfloor 0). apply Qfloor_resp_le. lra. }
  destruct (minInt64 <=? Qfloor q) eqn:E1; destruct (Qfloor q <=? maxInt64) eqn:E2;
    cbn [andb]; unfold maxInt64 in *; lia.
Qed.

Lemma X2_witness : round (-0.5)%float = -1.
Proof.
  refine (eq_trans (X2_round_negative (-0.5)%float (Qmake (- 2 ^ 52) (2 ^ 53)) _ _ _) _).
  - vm_compute. reflexivity.
  - vm_compute. reflexivity.
  - vm_compute. discriminate.
  - vm_compute. reflexivity.
Defined.

(** X3: with [czero] a multiple of [clockRate], [clock] returns the time
    since [czero] rounded down to a multiple of 20 ms: it is never ahead of
    the time, less than one tick behind, and it never goes back while the
    wall clock does not. *)
Theorem X3_clock_quantized (czero T : Z) :
  0 <= czero /\ czero mod clockRate = 0 ->
  czero <= T <= maxInt64 ->
  clock czero T mod clockRate = 0 /\
  clock czero T <= T - czero < clock czero T + clockRate /\
  (forall T', T <= T' <= maxInt64 -> clock czero T <= clock czero T').
Proof.
  intros C H. pose proof (clock_tick czero C T H) as [K1 K2].
  split; [exact K1|]. split.
  - split; [lia|]. rewrite (clock_val czero C T H).
    pose proof (Z.mod_pos_bound T clockRate clockRate_pos) as M.
    pose proof (Z.div_mod T clockRate ltac:(pose clockRate_pos; lia)) as E. lia.
  - intros T' H'. apply (clock_mono czero C); lia.
Qed.

Lemma X3_witness :
  clock 0 (135 * Millisecond) mod clockRate = 0 /\
  clock 0 (135 * Millisecond) <= 135 * Millisecond - 0
  < clock 0 (135 * Millisecond) + clockRate /\
  (forall T', 135 * Millisecond <= T' <= maxInt64 ->
     clock 0 (135 * Millisecond) <= clock 0 T').
Proof.
  apply (X3_clock_quantized 0 (135 * Millisecond)).
  - split; [lia | reflexivity].
  - vm_compute. split; discriminate.
Defined.

Section Monitoring.

Variable czero : Z.
Variable Exp : float -> float.

Local Abbreviation update := (update czero Exp).
Local Abbreviation Monitor_Status := (Monitor_Status czero Exp).
Local Abbreviation Done := (Done czero Exp).
Local Abbreviation Limit := (Limit czero Exp).
Local Abbreviation step := (step czero Exp).
Local Abbreviation run := (run czero Exp).
Local Abbreviation instRates := (instRates czero Exp).
Local Abbreviation sampleDone := (sampleDone czero).
Local Abbreviation rollover := (rollover Exp).

(** ** What never changes *)

Lemma update_fixed (m : Monitor) (n T : Z) :
  let m' := fst (update m n T) in
  start m' = start m /\ sRate m' = sRate m /\ rWindow m' = rWindow m.
Proof.
  cbv zeta. destruct (active m) eqn:A.
  - rewrite update_active by assumption. cbv zeta. cbn [fst].
    destruct (sRate m <=? _); repeat split.
  - rewrite update_inactive by assumption. repeat split.
Qed.

Lemma Done_fixed (m : Monitor) (T : Z) :
  let m' := fst (Done m T) in
  start m' = start m /\ sRate m' = sRate m /\ rWindow m' = rWindow m.
Proof.
  pose proof (update_fixed m 0 T) as H. cbv zeta in *. unfold Done.
  destruct (update m 0 T) as [m1 now]. cbn [fst] in H.
  destruct (0 <? sBytes m1); exact H.
Qed.

Lemma step_fixed (m : Monitor) (c : Z * call) :
  let m' := step m c in
  start m' = start m /\ sRate m' = sRate m /\ rWindow m' = rWindow m.
Proof.
  destruct c as [T c]. cbv zeta.
  destruct c as [n | | want rate |]; cbn [step].
  - apply update_fixed.
  - apply update_fixed.
  - rewrite Limit_nonblocking.
    destruct ((want <? 1) || (rate <? 1)); [repeat split | apply update_fixed].
  - apply Done_fixed.
Qed.

Lemma run_start (tr : list (Z * call)) :
  forall m : Monitor, start (run m tr) = start m.
Proof.
  induction tr as [| c tr IH]; intros m; [reflexivity|].
  unfold run in *. cbn [fold_left]. rewrite IH. apply step_fixed.
Qed.

(** X4: no method changes the start time, the sampling rate or the window
    of a monitor: after any sequence of calls they are what they were. *)
Theorem X4_fixed_fields (m : Monitor) (tr : list (Z * call)) :
  start (run m tr) = start m /\
  sRate (run m tr) = sRate m /\
  rWindow (run m tr) = rWindow m.
Proof.
  revert m. induction tr as [| c tr IH]; intros m; [repeat split|].
  unfold run in *. cbn [fold_left].
  destruct (IH (step m c)) as (H1 & H2 & H3).
  destruct (step_fixed m c) as (S1 & S2 & S3).
  rewrite H1, H2, H3. auto.
Qed.

(** X5: the [Start] that [Status] reports is the time [New] was called
    rounded down to a multiple of 20 ms, after any sequence of calls
    ([clockToTime] undoes the shift by [czero] of [clock]). *)
Theorem X5_Start_roundtrip (sampleRate windowSize T0 T : Z) (tr : list (Z * call)) :
  0 <= czero /\ czero mod clockRate = 0 ->
  czero <= T0 <= maxInt64 ->
  Start (snd (Monitor_Status (run (New czero sampleRate windowSize T0) tr) T))
  = T0 / clockRate * clockRate.
Proof.
  intros C H. unfold Monitor_Status. cbn [snd Start].
  destruct (update_fixed (run (New czero sampleRate windowSize T0) tr) 0 T)
    as (S & _ & _).
  rewrite S, run_start. cbn [New start].
  unfold clockToTime. rewrite (clock_val czero C T0 H).
  pose proof (Z.mul_div_le T0 clockRate clockRate_pos) as L.
  pose proof (tick_le_div czero T0 (proj2 C) ltac:(lia)) as G.
  replace (czero + (T0 / clockRate * clockRate - czero))
    with (T0 / clockRate * clockRate) by lia.
  apply wrap64_id. unfold minInt64, maxInt64 in *. lia.
Qed.

(** ** Queries *)

Lemma wrap64_wrap64 (z : Z) : wrap64 (wrap64 z + 0) = wrap64 z.
Proof. rewrite Z.add_0_r. apply wrap64_id, wrap64_range. Qed.

Lemma wrap64_0 : wrap64 0 = 0.
Proof. reflexivity. Qed.

(** A second [update(0)] at the same reading of the clock does nothing. *)
Lemma update_again (m : Monitor) (T : Z) :
  0 < sRate m -> update (fst (update m 0 T)) 0 T = update m 0 T.
Proof.
  intros R. destruct (active m) eqn:A.
  2:{ rewrite (update_inactive czero Exp m 0 T A). cbn [fst].
      apply update_inactive. assumption. }
  rewrite (update_active czero Exp m 0 T A). cbv zeta. cbn [fst].
  destruct (sRate m <=? wrap64 (clock czero T - sLast m)) eqn:E.
  - rewrite update_active by exact A. cbv zeta.
    set (m1 := rollover (set_sBytes m (wrap64 (sBytes m + 0))) (clock czero T)).
    assert (S1 : sBytes m1 = 0) by reflexivity.
    assert (L1 : sLast m1 = clock czero T) by reflexivity.
    assert (R1 : sRate m1 = sRate m) by reflexivity.
    rewrite L1, R1, Z.sub_diag, wrap64_0.
    replace (sRate m <=? 0) with false by (symmetry; apply Z.leb_gt; exact R).
    rewrite S1 at 1. cbn [Z.add]. rewrite wrap64_0, <- S1, set_sBytes_same.
    reflexivity.
  - rewrite update_active by assumption. cbv zeta.
    cbn [sBytes sRate sLast set_sBytes]. rewrite E, wrap64_wrap64. reflexivity.
Qed.

(** X6: [Status] can be repeated: on a monitor with a positive sampling
    rate, a second [Status] at the same reading of the clock returns the
    same status and leaves the monitor as the first one left it. *)
Theorem X6_Status_repeatable (m : Monitor) (T : Z) :
  0 < sRate m ->
  Monitor_Status (fst (Monitor_Status m T)) T
  = (fst (Monitor_Status m T), snd (Monitor_Status m T)).
Proof.
  intros R. unfold Monitor_Status at 1. cbn [fst].
  change (fst (Monitor_Status m T)) with (fst (update m 0 T)).
  rewrite (update_again m T R). reflexivity.
Qed.

(** ** The allowance *)

(** X7: on an active monitor a non-blocking [Limit(want, rate, false)] with
    [want >= 1] and [rate >= 1] returns [min(want, max(0, budget -
    pending))], the pending bytes being those left by the [update] it
    starts with; when that [update] ends a sample the whole budget is
    free, so at least one byte is allowed in every sampling period. *)
Theorem X7_Limit_remaining (Sleep : Z -> Z -> Z) (fuel : nat) (m : Monitor)
    (want rate T : Z) :
  active m = true -> 1 <= want -> 1 <= rate -> 0 <= sBytes m <= maxInt64 ->
  let m' := fst (update m 0 T) in
  Limit Sleep fuel m want rate false T
  = Ok (m', Z.min want (Z.max 0 (sampleLimit m rate - sBytes m')), T) /\
  (sampleDone m T = true ->
   sBytes m' = 0 /\ 1 <= Z.min want (sampleLimit m rate)).
Proof.
  intros A W R S m'.
  pose proof (sampleLimit_range m rate) as B.
  assert (A' : active m' = true /\ 0 <= sBytes m' <= maxInt64 /\
               (sampleDone m T = true -> sBytes m' = 0)).
  { unfold m', sampleDone. rewrite update_active by assumption. cbv zeta. cbn [fst].
    rewrite A, Z.add_0_r, (wrap64_id (sBytes m)) by (unfold minInt64; lia).
    cbn [andb].
    destruct (sRate m <=? _); unfold rollover; cbn [active sBytes set_sBytes];
      repeat split; first [assumption | lia | reflexivity | discriminate]. }
  destruct A' as (A' & S' & D').
  split; [|intros D; split; [auto | lia]].
  rewrite Limit_nonblocking.
  replace ((want <? 1) || (rate <? 1)) with false
    by (symmetry; apply orb_false_intro; apply Z.ltb_ge; lia).
  cbv zeta. fold m'. rewrite A'. cbn [negb]. rewrite orb_false_r.
  rewrite (wrap64_id (sampleLimit m rate - sBytes m'))
    by (unfold minInt64, maxInt64 in *; lia).
  f_equal. f_equal. f_equal.
  destruct (want <? sampleLimit m rate - sBytes m') eqn:E1;
    destruct (_ <? 0) eqn:E2; lia.
Qed.

(** ** Samples *)

Lemma update_samples (m : Monitor) (n T : Z) :
  samples (fst (update m n T)) =
  if sampleDone m T then wrap64 (samples m + 1) else samples m.
Proof.
  unfold sampleDone. destruct (active m) eqn:A.
  - rewrite update_active by assumption. cbv zeta. cbn [fst andb].
    destruct (sRate m <=? _); reflexivity.
  - rewrite update_inactive by assumption. reflexivity.
Qed.

Lemma step_samples (m : Monitor) (c : Z * call) :
  snd c <> CDone ->
  samples (step m c) =
  if calls_update (snd c) && sampleDone m (fst c)
  then wrap64 (samples m + 1) else samples m.
Proof.
  destruct c as [T c]. cbn [fst snd]. intros N.
  destruct c as [n | | want rate |]; cbn [step calls_update andb].
  - apply update_samples.
  - apply update_samples.
  - rewrite Limit_nonblocking.
    destruct ((want <? 1) || (rate <? 1)); cbn [negb andb]; [reflexivity|].
    apply update_samples.
  - contradiction.
Qed.

Lemma run_samples (tr : list (Z * call)) : forall m : Monitor,
  still_active true tr = true ->
  0 <= samples m -> samples m + len tr <= maxInt64 ->
  samples (run m tr) = samples m + len (instRates m tr) /\
  len (instRates m tr) <= len tr.
Proof.
  induction tr as [| c tr IH]; intros m D S Hmax.
  - cbn. unfold len. cbn. lia.
  - unfold still_active in D. cbn [forallb andb] in D.
    apply andb_prop in D. destruct D as [Dc D].
    assert (N : snd c <> CDone) by (intros C; rewrite C in Dc; discriminate).
    rewrite len_cons in Hmax. pose proof (len_nonneg tr) as Ltr.
    pose proof (step_samples m c N) as St.
    rewrite instRates_cons. unfold run in *. cbn [fold_left].
    destruct (calls_update (snd c) && sampleDone m (fst c)).
    + rewrite wrap64_id in St by (unfold minInt64, maxInt64 in *; lia).
      destruct (IH (step m c) D ltac:(lia) ltac:(lia)) as [E L].
      rewrite E, St. cbn [app]. rewrite !len_cons. lia.
    + destruct (IH (step m c) D ltac:(lia) ltac:(lia)) as [E L].
      rewrite E, St. cbn [app]. rewrite len_cons. lia.
Qed.

(** X8: as long as [Done] is not called, the number of samples of a new
    monitor is the number of rate samples computed so far: one per
    rollover, none in between (the sequence being shorter than 2^63
    calls). *)
Theorem X8_samples_count (sampleRate windowSize T0 : Z) (tr : list (Z * call)) :
  still_active true tr = true -> len tr <= maxInt64 ->
  let m0 := New czero sampleRate windowSize T0 in
  samples (run m0 tr) = len (instRates m0 tr) /\
  forall T, sampleDone (run m0 tr) T = false ->
            Samples (snd (Monitor_Status (run m0 tr) T)) = len (instRates m0 tr).
Proof.
  intros D L m0.
  assert (S0 : samples m0 = 0) by reflexivity.
  destruct (run_samples tr m0 D ltac:(rewrite S0; lia) ltac:(rewrite S0; lia))
    as [E _].
  rewrite S0, Z.add_0_l in E.
  split; [exact E|]. intros T H. unfold Monitor_Status. cbn [snd Samples].
  rewrite update_samples, H. exact E.
Qed.

(** X9: the totals and the rates change only at a rollover: a call other
    than [Done] that does not end a sample leaves the byte and sample
    totals, the three rates and the last sample time as they are. *)
Theorem X9_between_rollovers (m : Monitor) (T : Z) (c : call) :
  sampleDone m T = false -> c <> CDone ->
  let m' := step m (T, c) in
  bytes m' = bytes m /\ samples m' = samples m /\
  rSample m' = rSample m /\ rEMA m' = rEMA m /\ rPeak m' = rPeak m /\
  sLast m' = sLast m /\ active m' = active m.
Proof.
  intros D N.
  assert (U : forall n, let m' := fst (update m n T) in
            bytes m' = bytes m /\ samples m' = samples m /\
            rSample m' = rSample m /\ rEMA m' = rEMA m /\ rPeak m' = rPeak m /\
            sLast m' = sLast m /\ active m' = active m).
  { intros n. cbv zeta. destruct (active m) eqn:A.
    - rewrite update_pending by assumption. cbn. rewrite A. repeat split.
    - rewrite update_inactive by assumption. cbn. rewrite A. repeat split. }
  cbv zeta. destruct c as [n | | want rate |]; cbn [step].
  - apply U.
  - apply U.
  - rewrite Limit_nonblocking.
    destruct ((want <? 1) || (rate <? 1)); [repeat split | apply U].
  - contradiction.
Qed.

End Monitoring.

(** ** What Writer.Write hands to the stream *)

Lemma firstn_add {A : Type} (a j : nat) (l : list A) :
  firstn (a + j) l = firstn a l ++ firstn j (skipn a l).
Proof.
  revert l. induction a as [| a IH]; intros l; [reflexivity|].
  destruct l as [| x l]; cbn [Nat.add firstn skipn app].
  - destruct j; reflexivity.
  - rewrite IH. reflexivity.
Qed.

Lemma Limit_range (czero : Z) (Exp : float -> float) (Sleep : Z -> Z -> Z)
    (fuel : nat) (m : Monitor) (want rate T : Z) :
  0 <= want ->
  exists m' n,
    Limit czero Exp Sleep fuel m want rate false T = Ok (m', n, T) /\
    0 <= n <= want.
Proof.
  intros Hw. rewrite Limit_nonblocking.
  destruct ((want <? 1) || (rate <? 1)) eqn:G.
  - exists m, want. split; [reflexivity | lia].
  - apply orb_false_elim in G. destruct G as [G _].
    eexists _, _. split; [reflexivity|]. cbv zeta.
    destruct ((want <? _) || _) eqn:E.
    + destruct (want <? 0) eqn:W; lia.
    + apply orb_false_elim in E. destruct E as [E _].
      destruct (_ <? 0) eqn:W; lia.
Qed.

Section Written.

Variable czero : Z.
Variable Exp : float -> float.
Variable Sleep : Z -> Z -> Z.

Local Abbreviation writeLoop := (@writeLoop czero Exp Sleep (list Byte.byte) Buffer_Writer).
Local Abbreviation Write := (@Write czero Exp Sleep (list Byte.byte) Buffer_Writer).
Local Abbreviation Limit := (Limit czero Exp Sleep).

(** Whatever [Write] returns, the stream has received the bytes counted,
    in order, and the error tells whether all of them were written. *)
Lemma writeLoop_prefix (fuel : nat) :
  forall (w : Writer (list Byte.byte)) (p : list Byte.byte) (n T : Z)
         (w' : Writer (list Byte.byte)) (n' : Z) (err : option error) (T' : Z),
  0 <= n -> n + len p <= maxInt64 ->
  writeLoop fuel w p n T = Ok (w', (n', err), T') ->
  Writer_Writer w' = Writer_Writer w ++ firstn (Z.to_nat (n' - n)) p /\
  n <= n' <= n + len p /\
  (err = None /\ n' = n + len p \/ err = Some ErrLimit /\ n' < n + len p).
Proof.
  induction fuel as [| fuel IH]; intros w p n T w' n' err T' Hn Hmax E.
  - destruct p as [| b p']; cbn [writeLoop] in E; [|discriminate].
    injection E as <- <- <- <-. rewrite Z.sub_diag. cbn [Z.to_nat firstn].
    rewrite app_nil_r. unfold len. cbn [length]. split; [reflexivity|].
    split; [lia | left; split; [reflexivity | lia]].
  - destruct p as [| b p'].
    { cbn [writeLoop] in E. injection E as <- <- <- <-.
      rewrite Z.sub_diag. cbn [Z.to_nat firstn]. rewrite app_nil_r.
      unfold len. cbn [length]. split; [reflexivity|].
      split; [lia | left; split; [reflexivity | lia]]. }
    assert (Lp : 1 <= len (b :: p')) by (rewrite len_cons; pose (len_nonneg p'); lia).
    cbn [writeLoop] in E.
    destruct (Limit (S fuel) (Writer_Monitor w) (len (b :: p')) (Rate w) (Block w) T)
      as [[[m lim] T1] | |]; cbn [bind] in E; try discriminate.
    destruct ((lim <? 0) || (len (b :: p') <? lim)) eqn:C1; [discriminate|].
    apply orb_false_elim in C1. destruct C1 as [C1 C2].
    apply Z.ltb_ge in C1, C2.
    assert (Ls : len (firstn (Z.to_nat lim) (b :: p')) = lim).
    { unfold len in *. rewrite length_firstn. lia. }
    destruct (firstn (Z.to_nat lim) (b :: p')) as [| b' s'] eqn:Fs.
    { injection E as <- <- <- <-. rewrite Z.sub_diag. cbn [Z.to_nat firstn].
      rewrite app_nil_r. cbn [Writer_Writer]. split; [reflexivity|].
      split; [lia|]. right. split; [reflexivity | lia]. }
    unfold io_Write, Buffer_Writer in E. rewrite Ls in E.
    replace ((lim <? 0) || (len (b :: p') <? lim)) with false in E
      by (symmetry; apply orb_false_intro; apply Z.ltb_ge; lia).
    rewrite (wrap64_id (n + lim)) in E by (unfold minInt64, maxInt64 in *; lia).
    assert (Lk : len (skipn (Z.to_nat lim) (b :: p')) = len (b :: p') - lim).
    { unfold len in *. rewrite length_skipn. lia. }
    apply IH in E; [|lia | rewrite Lk; lia].
    cbn [Writer_Writer] in E. rewrite Lk in E.
    destruct E as (E1 & E2 & E3).
    split; [|split; [lia|]].
    + rewrite E1, <- Fs, <- app_assoc. f_equal.
      replace (Z.to_nat (n' - n)) with (Z.to_nat lim + Z.to_nat (n' - (n + lim)))%nat
        by lia.
      symmetry. apply firstn_add.
    + destruct E3 as [[-> ->] | [-> E3]]; [left | right]; split; try reflexivity; lia.
Qed.

(** X10: a non-blocking [Write] does not wait: it returns at the time it
    was called, with no error and all of [p] written, or with [ErrLimit]
    and a count [n < len(p)]; in both cases the stream has received exactly
    the first [n] bytes of [p], in order. *)
Theorem X10_Write_nonblocking (fuel : nat) (w : Writer (list Byte.byte))
    (p : list Byte.byte) (T : Z) :
  Block w = false -> (length p <= fuel)%nat -> len p <= maxInt64 ->
  exists w' n err,
    Write fuel w p T = Ok (w', (n, err), T) /\
    Writer_Writer w' = Writer_Writer w ++ firstn (Z.to_nat n) p /\
    (err = None /\ n = len p \/ err = Some ErrLimit /\ 0 <= n < len p).
Proof.
  intros Bl F Hmax.
  assert (Tot : forall fuel (w : Writer (list Byte.byte)) p n,
            Block w = false -> (length p <= fuel)%nat ->
            exists w' n' err, writeLoop fuel w p n T = Ok (w', (n', err), T)).
  { clear. induction fuel as [| fuel IH]; intros w p n Bl F.
    - destruct p; [|cbn in F; lia]. eexists _, _, _. reflexivity.
    - destruct p as [| b p']; [eexists _, _, _; reflexivity|].
      cbn [writeLoop]. rewrite Bl.
      destruct (Limit_range czero Exp Sleep (S fuel) (Writer_Monitor w)
                  (len (b :: p')) (Rate w) T (len_nonneg _))
        as (m & lim & E & Hl).
      rewrite E. cbn [bind].
      replace ((lim <? 0) || (len (b :: p') <? lim)) with false
        by (symmetry; apply orb_false_intro; apply Z.ltb_ge; lia).
      assert (Ls : len (firstn (Z.to_nat lim) (b :: p')) = lim).
      { unfold len in *. rewrite length_firstn. lia. }
      destruct (firstn (Z.to_nat lim) (b :: p')) as [| b' s'] eqn:Fs;
        [eexists _, _, _; reflexivity|].
      unfold io_Write, Buffer_Writer. rewrite Ls.
      replace ((lim <? 0) || (len (b :: p') <? lim)) with false
        by (symmetry; apply orb_false_intro; apply Z.ltb_ge; lia).
      apply IH; [reflexivity|].
      rewrite length_skipn. cbn [length] in *.
      assert (1 <= lim) by (unfold len in Ls; cbn [length] in Ls; lia). lia. }
  destruct (Tot fuel w p 0 Bl F) as (w' & n & err & E).
  exists w', n, err. split; [exact E|].
  apply writeLoop_prefix in E; [|lia | lia].
  rewrite Z.sub_0_r in E. destruct E as (E1 & E2 & E3).
  split; [exact E1|]. destruct E3 as [[-> ->] | [-> E3]]; [left | right];
    split; try reflexivity; lia.
Qed.

End Written.

(** ** The pace of a blocking Write *)

(** What a monitor has let through, counted in bytes times the sampling
    rate: the budget [B] for every period up to the last sample time, and
    the bytes of the sample in progress. *)
Definition credit (B : Z) (m : Monitor) : Z := B * sLast m + sBytes m * sRate m.

Section Paced.

Variable czero : Z.
Variable Exp : float -> float.
Variable Sleep : Z -> Z -> Z.
Variable J : Z.

Hypothesis czero_tick : 0 <= czero /\ czero mod clockRate = 0.
Hypothesis Sleep_spec : forall T d : Z, T + d <= Sleep T d <= T + d + J.

Local Abbreviation clock := (clock czero).
Local Abbreviation update := (update czero Exp).
Local Abbreviation Update := (Update czero Exp).
Local Abbreviation Limit := (Limit czero Exp Sleep).
Local Abbreviation limitLoop := (limitLoop czero Exp Sleep).
Local Abbreviation waitNextSample := (waitNextSample czero Exp Sleep).
Local Abbreviation rollover := (rollover Exp).
Local Abbreviation sampleDone := (sampleDone czero).
Local Abbreviation ready := (ready czero).

Lemma sampleLimit_sRate (m m' : Monitor) (rate : Z) :
  sRate m' = sRate m -> sampleLimit m' rate = sampleLimit m rate.
Proof. intros E. unfold sampleLimit. rewrite E. reflexivity. Qed.

(** Bytes enter the credit as they are reported, and a rollover does not
    lower it as long as no more than the budget was pending. *)
Lemma update_credit (B : Z) (m : Monitor) (n T : Z) :
  ready m T -> active m = true -> 0 <= n -> sBytes m + n <= B ->
  B <= maxInt64 ->
  let m' := fst (update m n T) in
  credit B m + n * sRate m <= credit B m' /\ sBytes m' <= B.
Proof.
  intros (HT & R0 & R1 & L1 & L2 & S) A Hn HB Hmax. cbv zeta.
  rewrite update_active by assumption. cbv zeta. cbn [fst].
  rewrite (wrap64_id (sBytes m + n)) by (unfold minInt64, maxInt64 in *; lia).
  pose proof (clock_tick czero czero_tick T HT) as [K1 K2].
  rewrite (wrap64_id (clock T - sLast m)) by (unfold minInt64, maxInt64 in *; lia).
  destruct (sRate m <=? clock T - sLast m) eqn:E.
  - apply Z.leb_le in E. unfold credit, rollover.
    cbn [sLast sBytes sRate set_sBytes]. split; [nia | lia].
  - unfold credit. cbn [sLast sBytes sRate set_sBytes]. split; lia.
Qed.

(** The blocking [Limit] of an active monitor: the allowance fits the
    budget of the sample in progress, and the credit has not gone down. *)
Lemma Limit_paced (fuel : nat) (m : Monitor) (want rate T : Z) :
  ready m T -> active m = true -> 1 <= want -> 1 <= rate ->
  sBytes m <= sampleLimit m rate ->
  T + sRate m + J <= maxInt64 -> (1 <= fuel)%nat ->
  exists m' n T',
    Limit fuel m want rate true T = Ok (m', n, T') /\
    1 <= n <= want /\
    ready m' T' /\ T <= T' <= T + sRate m + J /\
    sRate m' = sRate m /\ active m' = true /\
    sBytes m' + n <= sampleLimit m rate /\
    credit (sampleLimit m rate) m <= credit (sampleLimit m rate) m'.
Proof.
  intros Rd A W R SB Hmax F.
  destruct fuel as [| fuel]; [lia|].
  pose proof (sampleLimit_range m rate) as HB.
  set (B := sampleLimit m rate) in *.
  assert (G : (want <? 1) || (rate <? 1) = false).
  { apply orb_false_intro; apply Z.ltb_ge; lia. }
  unfold Limit. rewrite G. fold B.
  assert (S0 : 0 <= sBytes m <= maxInt64) by apply Rd.
  pose proof (update_ready czero Exp czero_tick m 0 T Rd ltac:(lia) ltac:(lia)) as U.
  cbv zeta in U. destruct U as (Rd1 & SR1 & A1 & SB1 & SL1).
  pose proof (update_settled czero Exp m 0 T Rd) as St1.
  pose proof (update_credit B m 0 T Rd A ltac:(lia) ltac:(lia) ltac:(lia)) as Cr1.
  cbv zeta in Cr1. rewrite Z.mul_0_l, Z.add_0_r in Cr1. destruct Cr1 as [Cr1 SB1'].
  pose proof (update_now czero Exp m 0 T A) as Now.
  rewrite A in A1.
  destruct (update m 0 T) as [m1 now]. cbn [fst snd] in *. subst now.
  assert (S1 : 0 <= sBytes m1 <= maxInt64) by apply Rd1.
  pose proof (Sleep_spec 0 0) as J0.
  destruct (B <=? sBytes m1) eqn:Full.
  - cbn [limitLoop]. rewrite Full, A1. cbn [andb].
    pose proof (wait_rolls czero Exp Sleep J czero_tick Sleep_spec fuel m1 T
                  Rd1 A1 St1 ltac:(lia)) as Wt.
    cbv zeta in Wt. destruct Wt as (Wt & HT' & Reach).
    set (T' := Sleep T (sLast m1 + sRate m1 - clock T)) in *.
    rewrite Wt. cbn [bind].
    set (m2 := rollover m1 (clock T')).
    assert (Rd2 : ready m2 T').
    { destruct Rd1 as (HT & R0 & R1 & L1 & L2 & _).
      assert (HT2 : czero <= T' <= maxInt64) by lia.
      pose proof (clock_tick czero czero_tick T' HT2) as [K1 K2].
      unfold ready, m2, rollover. cbn [sRate sLast sBytes].
      repeat split; first [assumption | lia]. }
    rewrite limitLoop_exit
      by (unfold m2, rollover; cbn [sBytes];
          replace (B <=? 0) with false by (symmetry; apply Z.leb_gt; lia);
          reflexivity).
    cbn [bind].
    pose proof (allowance_pos B want m2 W ltac:(unfold m2, rollover; cbn; lia)
                  ltac:(unfold m2, rollover; cbn [sBytes]; lia)) as P.
    cbv zeta in P. destruct P as [P1 P2].
    eexists _, _, _. split; [reflexivity|].
    split; [exact P1|]. split; [exact Rd2|]. split; [lia|].
    split; [unfold m2, rollover; cbn [sRate]; lia|].
    split; [unfold m2, rollover; cbn [active]; assumption|].
    split; [apply P2; unfold m2, rollover; cbn [active]; assumption|].
    apply Z.leb_le in Full. destruct Rd1 as (_ & R0 & _).
    unfold credit in *. unfold m2, rollover. cbn [sLast sBytes sRate].
    clear - Cr1 Full SB1' Reach R0 HB SR1. nia.
  - rewrite limitLoop_exit by (rewrite Full; reflexivity).
    cbn [bind]. apply Z.leb_gt in Full.
    pose proof (allowance_pos B want m1 W ltac:(lia) ltac:(lia)) as P.
    cbv zeta in P. destruct P as [P1 P2].
    eexists _, _, _. split; [reflexivity|].
    split; [exact P1|]. split; [exact Rd1|]. split.
    { destruct Rd as (_ & R0 & _). lia. }
    split; [assumption|]. split; [assumption|].
    split; [apply P2; assumption | exact Cr1].
Qed.

Context {U : Type} `{W : io_Writer U}.

Hypothesis Write_all :
  forall (u : U) (s : list Byte.byte), snd (io_Write u s) = (len s, None).

Local Abbreviation writeLoop := (@writeLoop czero Exp Sleep U W).
Local Abbreviation Write := (@Write czero Exp Sleep U W).

Lemma writeLoop_paced (fuel : nat) :
  forall (w : Writer U) (p : list Byte.byte) (n T : Z),
  let m := Writer_Monitor w in
  let B := sampleLimit m (Rate w) in
  ready m T -> active m = true -> Block w = true -> 1 <= Rate w ->
  sBytes m <= B ->
  (length p <= fuel)%nat ->
  0 <= n -> n + len p <= maxInt64 ->
  T + len p * (sRate m + J) <= maxInt64 ->
  exists w' T',
    writeLoop fuel w p n T = Ok (w', (n + len p, None), T') /\
    ready (Writer_Monitor w') T' /\
    sRate (Writer_Monitor w') = sRate m /\
    sBytes (Writer_Monitor w') <= B /\
    credit B m + len p * sRate m <= credit B (Writer_Monitor w').
Proof.
  induction fuel as [| fuel IH]; intros w p n T m B Rd A Bl R SB F Hn Hmax HT.
  - destruct p; [|cbn in F; lia]. exists w, T. cbn [writeLoop].
    rewrite Z.add_0_r. unfold len. cbn [length].
    split; [reflexivity|]. split; [exact Rd|]. split; [reflexivity|].
    split; [exact SB | unfold m; lia].
  - destruct p as [| b p'].
    { exists w, T. cbn [writeLoop]. rewrite Z.add_0_r.
      unfold len. cbn [length].
      split; [reflexivity|]. split; [exact Rd|]. split; [reflexivity|].
      split; [exact SB | unfold m; lia]. }
    assert (Lp : 1 <= len (b :: p')) by (rewrite len_cons; pose (len_nonneg p'); lia).
    assert (F' : (length p' <= fuel)%nat) by (cbn [length] in F; lia).
    pose proof (Sleep_spec 0 0) as J0.
    assert (R0 : 0 < sRate m) by apply Rd.
    pose proof (sampleLimit_range m (Rate w)) as HB. fold B in HB.
    destruct (Limit_paced (S fuel) m (len (b :: p')) (Rate w) T Rd A Lp R SB
                ltac:(clear - HT Lp R0 J0; nia) ltac:(lia))
      as (m1 & lim & T1 & E & Hl & Rd1 & HT1 & SR1 & A1 & SB1 & Cr1).
    fold B in SB1, Cr1.
    cbn [writeLoop]. fold m. rewrite Bl, E. cbn [bind].
    assert (C1 : (lim <? 0) || (len (b :: p') <? lim) = false)
      by (apply orb_false_intro; apply Z.ltb_ge; lia).
    rewrite C1.
    assert (Ls : len (firstn (Z.to_nat lim) (b :: p')) = lim).
    { unfold len. rewrite length_firstn. unfold len in Hl. lia. }
    destruct (firstn (Z.to_nat lim) (b :: p')) as [| b' s'] eqn:Fs.
    { unfold len in Ls. cbn [length] in Ls. lia. }
    pose proof (Write_all (Writer_Writer w) (b' :: s')) as Wa.
    destruct (io_Write (Writer_Writer w) (b' :: s')) as [u [c err]].
    cbn [snd] in Wa. injection Wa as -> ->. rewrite Ls, C1.
    assert (S1 : 0 <= sBytes m1) by apply Rd1.
    pose proof (update_ready czero Exp czero_tick m1 lim T1 Rd1 ltac:(lia)
                  ltac:(clear - SB1 HB; lia)) as Up.
    cbv zeta in Up. destruct Up as (Rd2 & SR2 & A2 & _ & _).
    pose proof (update_credit B m1 lim T1 Rd1 A1 ltac:(lia) SB1 ltac:(lia)) as Cr2.
    cbv zeta in Cr2. destruct Cr2 as [Cr2 SB2].
    rewrite (wrap64_id (n + lim)) by (unfold minInt64, maxInt64 in *; lia).
    assert (Lk : len (skipn (Z.to_nat lim) (b :: p')) = len (b :: p') - lim).
    { unfold len. rewrite length_skipn. unfold len in Hl. lia. }
    set (m2 := fst (update m1 lim T1)) in *.
    assert (B2 : sampleLimit m2 (Rate w) = B).
    { unfold B. apply sampleLimit_sRate. rewrite SR2, SR1. reflexivity. }
    destruct (IH (mkWriter u m2 (Rate w) true)
                (skipn (Z.to_nat lim) (b :: p')) (n + lim) T1)
      as (w' & T' & E' & Rd' & SR' & SB' & Cr').
    + exact Rd2.
    + cbn [Writer_Monitor]. rewrite A2. exact A1.
    + reflexivity.
    + exact R.
    + cbn [Writer_Monitor Rate]. rewrite B2. exact SB2.
    + rewrite length_skipn. cbn [length].
      destruct Hl as [Hl _]. clear - Hl F'. lia.
    + clear - Hn Hl. lia.
    + rewrite Lk. clear - Hmax. lia.
    + cbn [Writer_Monitor]. rewrite Lk, SR2, SR1.
      clear - HT HT1 Hl R0 J0. nia.
    + cbn [Writer_Monitor Rate] in SR', SB', Cr'. rewrite B2 in SB', Cr'.
      rewrite Lk, SR2, SR1 in Cr'. rewrite SR2, SR1 in SR'.
      exists w', T'. unfold Update. cbn [fst]. fold m2. rewrite E', Lk.
      replace (n + lim + (len (b :: p') - lim)) with (n + len (b :: p'))
        by (clear; lia).
      split; [reflexivity|]. split; [exact Rd'|]. split; [exact SR'|].
      split; [exact SB'|].
      rewrite SR1 in Cr2. clear - Cr1 Cr2 Cr'. lia.
Qed.

(** X12: the limit is kept. A blocking [Write(p)] at a rate [>= 1] on an
    active monitor (no more than the budget [B] of a period pending, the
    sample in progress not yet done) returns [(len(p), nil)], and by then
    the last sample time has moved on by at least [len(p) / B - 1]
    sampling periods: the call takes more than [len(p) / B - 2] periods,
    less one tick of the clock. *)
Theorem X12_Write_pace (fuel : nat) (w : Writer U) (p : list Byte.byte) (T : Z) :
  let m := Writer_Monitor w in
  let B := sampleLimit m (Rate w) in
  ready m T -> active m = true -> Block w = true -> 1 <= Rate w ->
  sBytes m <= B -> sampleDone m T = false ->
  T + len p * (sRate m + J) <= maxInt64 ->
  (length p <= fuel)%nat ->
  exists w' T',
    Write fuel w p T = Ok (w', (len p, None), T') /\
    len p * sRate m <= B * (sLast (Writer_Monitor w') - sLast m + sRate m) /\
    len p * sRate m < B * (T' - T + clockRate + 2 * sRate m).
Proof.
  intros m B Rd A Bl R SB D HT F.
  pose proof (Sleep_spec 0 0) as J0.
  assert (R0 : 0 < sRate m) by apply Rd.
  assert (S0 : 0 <= sBytes m) by apply Rd.
  pose proof (len_nonneg p) as Lp.
  pose proof (sampleLimit_range m (Rate w)) as HB. fold B in HB.
  assert (Hmax : 0 + len p <= maxInt64) by (destruct Rd as ((C & _) & _); nia).
  destruct (writeLoop_paced fuel w p 0 T Rd A Bl R SB F ltac:(lia) Hmax HT)
    as (w' & T' & E & Rd' & SR' & SB' & Cr).
  fold m B in SR', SB', Cr.
  exists w', T'. split; [exact E|].
  unfold credit in Cr. rewrite SR' in Cr.
  assert (P1 : len p * sRate m
               <= B * (sLast (Writer_Monitor w') - sLast m + sRate m))
    by (clear - Cr SB' S0 R0 HB; nia).
  split; [exact P1|].
  destruct Rd as (HT0 & _ & _ & _ & L0 & _).
  destruct Rd' as (HT1 & _ & _ & _ & L1 & _).
  pose proof (clock_tick czero czero_tick T' HT1) as [_ K1].
  pose proof (clock_val czero czero_tick T HT0) as V0.
  pose proof (Z.mod_pos_bound T clockRate clockRate_pos) as M.
  pose proof (Z.div_mod T clockRate ltac:(pose clockRate_pos; lia)) as Q.
  unfold sampleDone in D. rewrite A in D. cbn [andb] in D.
  rewrite (wrap64_id (clock T - sLast m)) in D
    by (pose proof (clock_tick czero czero_tick T HT0) as [_ K0];
        unfold minInt64, maxInt64 in *; lia).
  apply Z.leb_gt in D.
  assert (Gap : sLast (Writer_Monitor w') - sLast m + sRate m
                < T' - T + clockRate + 2 * sRate m)
    by (clear - L1 K1 V0 M Q D; lia).
  clear - P1 Gap HB. nia.
Qed.

End Paced.

(** ** What a blocking Write delivers *)

Section Delivered.

Variable czero : Z.
Variable Exp : float -> float.
Variable Sleep : Z -> Z -> Z.
Variable J : Z.

Hypothesis czero_tick : 0 <= czero /\ czero mod clockRate = 0.
Hypothesis Sleep_spec : forall T d : Z, T + d <= Sleep T d <= T + d + J.

(** X11: under the conditions of a blocking [Write] that returns
    [(len(p), nil)], the bytes of [p] reach the stream complete and in
    order, however the limiter cuts [p] into chunks. *)
Theorem X11_Write_delivers (fuel : nat) (w : Writer (list Byte.byte))
    (p : list Byte.byte) (T : Z) :
  ready czero (Writer_Monitor w) T -> Block w = true ->
  sBytes (Writer_Monitor w) + len p <= maxInt64 ->
  T + len p * (sRate (Writer_Monitor w) + J) <= maxInt64 ->
  (length p <= fuel)%nat ->
  exists w' T',
    Write czero Exp Sleep fuel w p T = Ok (w', (len p, None), T') /\
    Writer_Writer w' = Writer_Writer w ++ p.
Proof.
  intros Rd Bl SB HT F.
  assert (S0 : 0 <= sBytes (Writer_Monitor w)) by apply Rd.
  destruct (writeLoop_all czero Exp Sleep J czero_tick Sleep_spec
              (U := list Byte.byte) (W := Buffer_Writer)
              (fun u s => eq_refl) fuel w p 0 T Rd Bl F SB ltac:(lia)
              ltac:(lia) HT)
    as (w' & T' & E).
  exists w', T'. split; [exact E|].
  apply writeLoop_prefix in E; [|lia | lia].
  destruct E as (E & _). rewrite E. f_equal.
  rewrite Z.add_0_l, Z.sub_0_r. unfold len. rewrite Nat2Z.id. apply firstn_all.
Qed.

End Delivered.

(** ** A finished transfer is not limited *)

Section Closed.

Variable czero : Z.
Variable Exp : float -> float.
Variable Sleep : Z -> Z -> Z.

Context {U : Type} `{W : io_Writer U} `{C : io_Closer U}.

Hypothesis Write_all :
  forall (u : U) (s : list Byte.byte), snd (io_Write u s) = (len s, None).

(** X13: after [Close] the writer is not limited any more: whatever its
    rate and blocking mode, [Write(p)] hands all of [p] to the stream in one
    piece and returns [(len(p), nil)] at the time it was called, without
    sleeping; the monitor stays as [Close] left it, inactive. *)
Theorem X13_Write_after_Close (fuel : nat) (w : Writer U) (p : list Byte.byte)
    (T0 T : Z) :
  (1 <= fuel)%nat -> len p <= maxInt64 ->
  let w1 := fst (Writer_Close czero Exp w T0) in
  active (Writer_Monitor w1) = false /\
  exists u',
    Write czero Exp Sleep fuel w1 p T
    = Ok (mkWriter u' (Writer_Monitor w1) (Rate w) (Block w),
          (len p, None), T) /\
    (p <> [] -> u' = fst (io_Write (Writer_Writer w1) p)).
Proof.
  intros F Hmax w1.
  assert (A : active (Writer_Monitor w1) = false).
  { unfold w1, Writer_Close.
    destruct (io_Close (Writer_Writer w)) as [[u e] |]; cbn [fst Writer_Monitor];
      apply Done_inactive. }
  assert (RB : Rate w1 = Rate w /\ Block w1 = Block w).
  { unfold w1, Writer_Close.
    destruct (io_Close (Writer_Writer w)) as [[u e] |]; split; reflexivity. }
  destruct RB as [Rw Bw].
  split; [exact A|].
  destruct fuel as [| fuel]; [lia|].
  destruct p as [| b p'].
  { exists (Writer_Writer w1). split; [|intros N; contradiction].
    unfold Write. cbn [writeLoop]. rewrite <- Rw, <- Bw.
    destruct w1; reflexivity. }
  set (p := b :: p') in *.
  assert (Lp : 1 <= len p) by (unfold p; rewrite len_cons; pose (len_nonneg p'); lia).
  exists (fst (io_Write (Writer_Writer w1) p)).
  split; [|reflexivity].
  unfold Write. unfold p at 1. cbn [writeLoop]. fold p.
  rewrite (Limit_inactive czero Exp Sleep _ _ _ _ _ _ A). cbn [bind].
  replace ((len p <? 0) || (len p <? len p)) with false
    by (symmetry; apply orb_false_intro; apply Z.ltb_ge; lia).
  assert (Fa : firstn (Z.to_nat (len p)) p = p).
  { unfold len. rewrite Nat2Z.id. apply firstn_all. }
  rewrite Fa. unfold p at 1. fold p.
  pose proof (Write_all (Writer_Writer w1) p) as Wa.
  destruct (io_Write (Writer_Writer w1) p) as [u [c err]].
  cbn [snd fst] in *. injection Wa as -> ->.
  replace ((len p <? 0) || (len p <? len p)) with false
    by (symmetry; apply orb_false_intro; apply Z.ltb_ge; lia).
  unfold Update. rewrite (update_inactive czero Exp _ _ _ A). cbn [fst].
  assert (Sk : skipn (Z.to_nat (len p)) p = []).
  { unfold len. rewrite Nat2Z.id. apply skipn_all. }
  rewrite Sk, Rw, Bw.
  rewrite (wrap64_id (0 + len p)) by (unfold minInt64, maxInt64 in *; lia).
  destruct fuel; reflexivity.
Qed.

End Closed.

(** ** Reader.Read *)

Section Reading.

Variable czero : Z.
Variable Exp : float -> float.
Variable Sleep : Z -> Z -> Z.

Context {U : Type} `{R : io_Reader U}.

(** The underlying stream returns no more than it is asked for. *)
Hypothesis Read_short :
  forall (u : U) (k : Z), 0 <= k -> len (fst (snd (io_Read u k))) <= k.

Local Abbreviation update := (update czero Exp).
Local Abbreviation Read := (@Read czero Exp Sleep U R).
Local Abbreviation reads := (@reads czero Exp Sleep U R).
Local Abbreviation within_period := (within_period czero).
Local Abbreviation sampleDone := (sampleDone czero).

(** A non-blocking [Read] within a sample of an active monitor: it reads
    no more than is left of the budget, and what it reads joins the bytes
    pending. *)
Lemma Read_pending (fuel : nat) (r : Reader U) (lenp T : Z) :
  let m := Reader_Monitor r in
  let B := sampleLimit m (Reader_Rate r) in
  Reader_Block r = false -> active m = true -> 1 <= Reader_Rate r ->
  0 <= sBytes m <= maxInt64 -> 0 <= lenp -> sampleDone m T = false ->
  exists u data err,
    Read fuel r lenp T
    = Ok (mkReader u (set_sBytes m (sBytes m + len data)) (Reader_Rate r) false,
          (data, err), T) /\
    len data <= lenp /\
    sBytes m + len data <= Z.max (sBytes m) B /\
    (B <= sBytes m -> u = Reader_Reader r /\ data = [] /\ err = None).
Proof.
  intros m B Bl A Rt S Hl D.
  pose proof (sampleLimit_range m (Reader_Rate r)) as HB. fold B in HB.
  assert (U0 : update m 0 T = (m, clock czero T)).
  { rewrite update_pending by assumption.
    rewrite Z.add_0_r, wrap64_id, set_sBytes_same by (unfold minInt64; lia).
    reflexivity. }
  assert (Same : set_sBytes m (sBytes m + len (@nil Byte.byte)) = m).
  { unfold len. cbn [length]. rewrite Z.add_0_r. apply set_sBytes_same. }
  unfold Read. fold m. rewrite Bl, Limit_nonblocking.
  destruct ((lenp <? 1) || (Reader_Rate r <? 1)) eqn:G.
  - apply orb_true_elim in G. destruct G as [G | G]; [|lia].
    assert (lenp = 0) by lia. subst lenp. cbn [bind].
    change ((0 <? 0) || (0 <? 0)) with false. change (0 <? 0) with false.
    cbv iota. exists (Reader_Reader r), [], None. rewrite Same.
    split; [reflexivity|]. unfold len. cbn [length].
    split; [lia|]. split; [lia | auto].
  - apply orb_false_elim in G. destruct G as [G _]. apply Z.ltb_ge in G.
    cbv zeta. rewrite U0. cbn [fst bind]. fold B.
    rewrite A. cbn [negb]. rewrite orb_false_r.
    rewrite (wrap64_id (B - sBytes m)) by (unfold minInt64, maxInt64 in *; lia).
    set (lim := if (if lenp <? B - sBytes m then lenp else B - sBytes m) <? 0
                then 0
                else (if lenp <? B - sBytes m then lenp else B - sBytes m)).
    assert (Hlim : 0 <= lim <= lenp /\ sBytes m + lim <= Z.max (sBytes m) B /\
                   (B <= sBytes m -> lim = 0)).
    { subst lim. destruct (lenp <? B - sBytes m) eqn:E1;
        destruct (_ <? 0) eqn:E2; lia. }
    destruct Hlim as (L1 & L2 & L3).
    replace ((lim <? 0) || (lenp <? lim)) with false
      by (symmetry; apply orb_false_intro; apply Z.ltb_ge; lia).
    destruct (0 <? lim) eqn:P.
    + pose proof (Read_short (Reader_Reader r) lim ltac:(lia)) as Sh.
      destruct (io_Read (Reader_Reader r) lim) as [u [data err]].
      cbn [fst snd] in Sh. pose proof (len_nonneg data) as Nd.
      unfold IO, Update. rewrite update_pending by assumption. cbn [fst].
      rewrite (wrap64_id (sBytes m + len data))
        by (unfold minInt64, maxInt64 in *; lia).
      exists u, data, err. split; [reflexivity|].
      split; [lia|]. split; [lia|]. intros C. lia.
    + exists (Reader_Reader r), [], None. rewrite Same.
      split; [reflexivity|]. unfold len. cbn [length].
      split; [lia|]. split; [lia | auto].
Qed.

(** X14: a non-blocking [Read] that finds the budget of the sample used up
    returns [(0, nil)] at once, neither an error nor the end of the stream,
    and does not touch the underlying stream or the monitor. *)
Theorem X14_Read_exhausted (fuel : nat) (r : Reader U) (lenp T : Z) :
  let m := Reader_Monitor r in
  Reader_Block r = false -> active m = true -> 1 <= Reader_Rate r ->
  0 <= lenp -> sampleDone m T = false ->
  sampleLimit m (Reader_Rate r) <= sBytes m <= maxInt64 ->
  Read fuel r lenp T
  = Ok (mkReader (Reader_Reader r) m (Reader_Rate r) false, ([], None), T).
Proof.
  intros m Bl A Rt Hl D S.
  pose proof (sampleLimit_range m (Reader_Rate r)) as HB.
  destruct (Read_pending fuel r lenp T Bl A Rt ltac:(fold m; lia) Hl D)
    as (u & data & err & E & _ & _ & X).
  fold m in E, X. destruct (X ltac:(lia)) as (-> & -> & ->).
  rewrite E. unfold len. cbn [length]. rewrite Z.add_0_r, set_sBytes_same.
  reflexivity.
Qed.

Lemma reads_cons (r : Reader U) (T lenp : Z) (calls : list (Z * Z)) :
  reads r ((T, lenp) :: calls) =
  match Read 0 r lenp T with
  | Ok (r', (data, _), _) => len data :: reads r' calls
  | _ => []
  end.
Proof. reflexivity. Qed.

Lemma reads_bound (calls : list (Z * Z)) : forall r : Reader U,
  let m := Reader_Monitor r in
  Reader_Block r = false -> active m = true -> 1 <= Reader_Rate r ->
  0 <= sBytes m <= maxInt64 -> within_period m calls ->
  sBytes m + total (reads r calls)
  <= Z.max (sBytes m) (sampleLimit m (Reader_Rate r)).
Proof.
  induction calls as [| [T lenp] calls IH]; intros r m Bl A Rt S Wp.
  - cbn. lia.
  - inversion Wp as [| ? ? [Hw Hd] Wp']; subst. cbn [fst snd] in Hw, Hd.
    pose proof (sampleLimit_range m (Reader_Rate r)) as HB.
    destruct (Read_pending 0 r lenp T Bl A Rt S Hw Hd)
      as (u & data & err & E & L1 & L2 & _).
    fold m in E, L2. rewrite reads_cons, E.
    pose proof (len_nonneg data) as Nd.
    specialize (IH (mkReader u (set_sBytes m (sBytes m + len data))
                      (Reader_Rate r) false)).
    cbv zeta in IH. cbn [Reader_Monitor Reader_Block Reader_Rate] in IH.
    specialize (IH eq_refl A Rt).
    cbn [sBytes set_sBytes] in IH.
    specialize (IH ltac:(unfold maxInt64 in *; lia) Wp').
    change (sampleLimit (set_sBytes m (sBytes m + len data)) (Reader_Rate r))
      with (sampleLimit m (Reader_Rate r)) in IH.
    cbn [total fold_right].
    fold (total (reads (mkReader u (set_sBytes m (sBytes m + len data))
                          (Reader_Rate r) false) calls)).
    lia.
Qed.

(** X15: the bytes read by consecutive non-blocking [Read] calls within
    one sampling period of an active monitor, at a rate [>= 1], do not
    exceed the budget of the period, whatever the underlying stream returns
    on each call. *)
Theorem X15_Read_budget (r : Reader U) (calls : list (Z * Z)) :
  let m := Reader_Monitor r in
  Reader_Block r = false -> active m = true -> 1 <= Reader_Rate r ->
  0 <= sBytes m <= maxInt64 -> within_period m calls ->
  total (reads r calls) <= sampleLimit m (Reader_Rate r) /\
  sBytes m + total (reads r calls)
  <= Z.max (sBytes m) (sampleLimit m (Reader_Rate r)).
Proof.
  intros m Bl A Rt S Wp.
  pose proof (reads_bound calls r Bl A Rt S Wp) as H. fold m in H.
  pose proof (sampleLimit_range m (Reader_Rate r)) as HB.
  split; [lia | exact H].
Qed.

End Reading.

(** ** New *)

(** X16: whatever its arguments, [New] returns an active monitor with
    nothing counted whose sampling rate is a multiple of 20 ms, at least
    20 ms; a sampling rate below 10 ms, zero and negative ones included,
    gives the default of 100 ms, and a window [<= 0] the default of one
    second. *)
Theorem X16_New_defaults (czero sampleRate windowSize T : Z) :
  let m := New czero sampleRate windowSize T in
  (active m = true /\ bytes m = 0 /\ samples m = 0 /\ sBytes m = 0 /\
   start m = sLast m) /\
  (clockRate <= sRate m /\ sRate m mod clockRate = 0) /\
  (minInt64 <= sampleRate < clockRate / 2 -> sRate m = 100 * Millisecond) /\
  (windowSize <= 0 -> rWindow m = 1%float).
Proof.
  cbv zeta. split; [repeat split|]. split; [|split].
  - unfold New. cbn [sRate].
    pose proof (clockRound_tick sampleRate) as CT.
    destruct (clockRound sampleRate <=? 0) eqn:E.
    + split; [vm_compute; discriminate | reflexivity].
    + split; [|exact CT]. apply tick_pos; [exact CT | lia].
  - intros H. unfold New. cbn [sRate].
    assert (E : clockRound sampleRate <= 0).
    { unfold clockRound. change (Z.shiftr clockRate 1) with 10000000.
      change (clockRate / 2) with 10000000 in H. change clockRate with 20000000.
      rewrite (wrap64_id (sampleRate + 10000000))
        by (unfold minInt64, maxInt64 in *; lia).
      destruct (Z.le_gt_cases 0 (sampleRate + 10000000)) as [P | P].
      - rewrite Z.quot_small by lia. reflexivity.
      - pose proof (Z.mul_quot_ge (sampleRate + 10000000) 20000000
                      ltac:(lia) ltac:(lia)) as Q.
        rewrite wrap64_id by (unfold minInt64, maxInt64 in *; lia). lia. }
    apply Z.leb_le in E. rewrite E. reflexivity.
  - intros H. unfold New. cbn [rWindow].
    apply Z.leb_le in H. rewrite H. vm_compute. reflexivity.
Qed.

(** ** The properties on concrete runs *)

(** A writer and a reader that do not block, with a budget of one byte for
    each period of 100 ms. *)
Definition slowWriter : Writer (list byte) :=
  mkWriter [] (New 0 0 0 0) 10 false.

Definition slowReader : Reader (list byte) :=
  mkReader [x00; x01; x02] (New 0 0 0 0) 10 false.

Lemma Buffer_Read_short (u : list byte) (k : Z) :
  0 <= k -> len (fst (snd (io_Read u k))) <= k.
Proof.
  intros H. unfold io_Read, Buffer_Reader. destruct u as [| b u].
  - cbn. unfold len. cbn. lia.
  - cbn [fst snd]. unfold len. rewrite length_firstn. lia.
Qed.

Lemma X5_witness :
  Start (snd (Monitor_Status 0 exp_series
                (run 0 exp_series (New 0 0 0 (135 * Millisecond))
                   [(200 * Millisecond, CUpdate 5)])
                (300 * Millisecond)))
  = 135 * Millisecond / clockRate * clockRate.
Proof.
  apply (X5_Start_roundtrip 0 exp_series 0 0 (135 * Millisecond)).
  - split; [lia | reflexivity].
  - vm_compute. split; discriminate.
Defined.

Lemma X6_witness :
  Monitor_Status 0 exp_series
    (fst (Monitor_Status 0 exp_series pending1000 (150 * Millisecond)))
    (150 * Millisecond)
  = (fst (Monitor_Status 0 exp_series pending1000 (150 * Millisecond)),
     snd (Monitor_Status 0 exp_series pending1000 (150 * Millisecond))).
Proof.
  apply (X6_Status_repeatable 0 exp_series pending1000 (150 * Millisecond)).
  reflexivity.
Defined.

Lemma X7_witness :
  Limit 0 exp_series sleep_exact 0 pending1000 5000 100000 false 0
  = Ok (pending1000, 5000, 0).
Proof.
  refine (eq_trans
            (proj1 (X7_Limit_remaining 0 exp_series sleep_exact 0 pending1000
                      5000 100000 0 _ _ _ _)) _).
  - reflexivity.
  - lia.
  - lia.
  - vm_compute. split; discriminate.
  - vm_compute. reflexivity.
Defined.

Lemma X8_witness :
  samples (run 0 exp_series scenarioA0
             [(0, CUpdate 5); (100 * Millisecond, CStatus);
              (150 * Millisecond, CUpdate 7); (220 * Millisecond, CLimit 10 10)])
  = 2.
Proof.
  refine (eq_trans
            (proj1 (X8_samples_count 0 exp_series (100 * Millisecond) (1 * Second) 0
                      [(0, CUpdate 5); (100 * Millisecond, CStatus);
                       (150 * Millisecond, CUpdate 7);
                       (220 * Millisecond, CLimit 10 10)] _ _)) _).
  - reflexivity.
  - vm_compute. discriminate.
  - vm_compute. reflexivity.
Defined.

Lemma X9_witness :
  bytes (step 0 exp_series pending1000 (40 * Millisecond, CUpdate 5))
  = bytes pending1000.
Proof.
  refine (proj1 (X9_between_rollovers 0 exp_series pending1000 (40 * Millisecond)
                   (CUpdate 5) _ _)).
  - vm_compute. reflexivity.
  - discriminate.
Defined.

Lemma X10_witness :
  exists w' n err,
    Write 0 exp_series sleep_exact 3 slowWriter [x00; x01; x02] 0
    = Ok (w', (n, err), 0) /\
    Writer_Writer w' = Writer_Writer slowWriter ++ firstn (Z.to_nat n) [x00; x01; x02] /\
    (err = None /\ n = len [x00; x01; x02] \/
     err = Some ErrLimit /\ 0 <= n < len [x00; x01; x02]).
Proof.
  apply (X10_Write_nonblocking 0 exp_series sleep_exact 3 slowWriter
           [x00; x01; x02] 0).
  - reflexivity.
  - cbn. lia.
  - vm_compute. discriminate.
Defined.

Lemma X11_witness :
  exists w' T',
    Write 0 exp_series sleep_exact 3 (NewWriter 0 [x0a] 10 0) [x00; x01; x02] 0
    = Ok (w', (3, None), T') /\
    Writer_Writer w' = [x0a; x00; x01; x02].
Proof.
  refine (X11_Write_delivers 0 exp_series sleep_exact 0 _ _ 3
            (NewWriter 0 [x0a] 10 0) [x00; x01; x02] 0 _ _ _ _ _).
  - split; [lia | reflexivity].
  - intros T d. unfold sleep_exact. lia.
  - apply New_ready; [split; [lia | reflexivity] | unfold maxInt64; lia].
  - reflexivity.
  - vm_compute. discriminate.
  - vm_compute. discriminate.
  - cbn. lia.
Defined.

Lemma X12_witness :
  exists w' T',
    Write 0 exp_series sleep_exact 3 (NewWriter 0 [] 10 0) [x00; x01; x02] 0
    = Ok (w', (3, None), T') /\
    3 * (100 * Millisecond)
    <= 1 * (sLast (Writer_Monitor w') - 0 + 100 * Millisecond) /\
    3 * (100 * Millisecond) < 1 * (T' - 0 + clockRate + 2 * (100 * Millisecond)).
Proof.
  refine (X12_Write_pace 0 exp_series sleep_exact 0 _ _ (fun u s => eq_refl) 3
            (NewWriter 0 [] 10 0) [x00; x01; x02] 0 _ _ _ _ _ _ _ _).
  - split; [lia | reflexivity].
  - intros T d. unfold sleep_exact. lia.
  - apply New_ready; [split; [lia | reflexivity] | unfold maxInt64; lia].
  - reflexivity.
  - reflexivity.
  - vm_compute. discriminate.
  - vm_compute. discriminate.
  - vm_compute. reflexivity.
  - vm_compute. discriminate.
  - cbn. lia.
Defined.

Lemma X13_witness :
  let w1 := fst (Writer_Close 0 exp_series slowWriter (40 * Millisecond)) in
  active (Writer_Monitor w1) = false /\
  exists u',
    Write 0 exp_series sleep_exact 1 w1 [x00; x01; x02] (40 * Millisecond)
    = Ok (mkWriter u' (Writer_Monitor w1) 10 false, (3, None), 40 * Millisecond) /\
    ([x00; x01; x02] <> [] -> u' = fst (io_Write (Writer_Writer w1) [x00; x01; x02])).
Proof.
  refine (X13_Write_after_Close 0 exp_series sleep_exact (fun u s => eq_refl) 1
            slowWriter [x00; x01; x02] (40 * Millisecond) (40 * Millisecond) _ _).
  - lia.
  - vm_compute. discriminate.
Defined.

Lemma X14_witness :
  let r := mkReader [x00; x01; x02]
             (fst (Update 0 exp_series (New 0 0 0 0) 1 0)) 10 false in
  Read 0 exp_series sleep_exact 0 r 3 0
  = Ok (mkReader (Reader_Reader r) (Reader_Monitor r) 10 false, ([], None), 0).
Proof.
  refine (X14_Read_exhausted 0 exp_series sleep_exact Buffer_Read_short 0
            (mkReader [x00; x01; x02]
               (fst (Update 0 exp_series (New 0 0 0 0) 1 0)) 10 false)
            3 0 _ _ _ _ _ _).
  - reflexivity.
  - reflexivity.
  - cbn. lia.
  - lia.
  - vm_compute. reflexivity.
  - vm_compute. split; discriminate.
Defined.

Lemma X15_witness :
  total (reads 0 exp_series sleep_exact slowReader [(0, 3); (20 * Millisecond, 3)])
  <= sampleLimit (Reader_Monitor slowReader) 10.
Proof.
  refine (proj1 (X15_Read_budget 0 exp_series sleep_exact Buffer_Read_short
                   slowReader [(0, 3); (20 * Millisecond, 3)] _ _ _ _ _)).
  - reflexivity.
  - reflexivity.
  - cbn. lia.
  - vm_compute. split; discriminate.
  - repeat constructor; cbn [fst snd]; try lia; vm_compute; reflexivity.
Defined.

(** ** A blocking Read *)

Section BlockingRead.

Variable czero : Z.
Variable Exp : float -> float.
Variable Sleep : Z -> Z -> Z.
Variable J : Z.

Hypothesis czero_tick : 0 <= czero /\ czero mod clockRate = 0.
Hypothesis Sleep_spec : forall T d : Z, T + d <= Sleep T d <= T + d + J.

Context {U : Type} `{R : io_Reader U}.

(** X17: a blocking [Read(p)] with [len(p) >= 1] is never cut to nothing by
    the limit: after at most one sleep, which ends within one sampling
    period and [J], it asks the underlying stream for at least one byte and
    at most [len(p)], and returns what the stream returns. *)
Theorem X17_Read_blocking (fuel : nat) (r : Reader U) (lenp T : Z) :
  ready czero (Reader_Monitor r) T -> Reader_Block r = true -> 1 <= lenp ->
  T + sRate (Reader_Monitor r) + J <= maxInt64 -> (1 <= fuel)%nat ->
  exists lim m' T',
    1 <= lim <= lenp /\ T <= T' <= T + sRate (Reader_Monitor r) + J /\
    Read czero Exp Sleep fuel r lenp T
    = Ok (mkReader (fst (io_Read (Reader_Reader r) lim)) m' (Reader_Rate r) true,
          snd (io_Read (Reader_Reader r) lim), T').
Proof.
  intros Rd Bl Hl Hmax F.
  destruct (Limit_writer czero Exp Sleep J czero_tick Sleep_spec fuel
              (Reader_Monitor r) lenp (Reader_Rate r) T Rd Hl Hmax F)
    as (m1 & lim & T' & E & Hlim & _ & HT' & _).
  unfold Read. rewrite Bl, E. cbn [bind].
  replace ((lim <? 0) || (lenp <? lim)) with false
    by (symmetry; apply orb_false_intro; apply Z.ltb_ge; lia).
  replace (0 <? lim) with true by (symmetry; apply Z.ltb_lt; lia).
  exists lim,
    (fst (Update czero Exp m1 (len (fst (snd (io_Read (Reader_Reader r) lim)))) T')),
    T'.
  split; [exact Hlim|]. split; [exact HT'|].
  destruct (io_Read (Reader_Reader r) lim) as [u [data err]].
  unfold IO. cbn [fst snd]. reflexivity.
Qed.

End BlockingRead.

Lemma X17_witness :
  exists lim m' T',
    1 <= lim <= 3 /\ 0 <= T' <= 0 + sRate (New 0 0 0 0) + 0 /\
    Read 0 exp_series sleep_exact 1 (NewReader 0 [x00; x01; x02] 10 0) 3 0
    = Ok (mkReader (fst (io_Read [x00; x01; x02] lim)) m' 10 true,
          snd (io_Read [x00; x01; x02] lim), T').
Proof.
  refine (X17_Read_blocking 0 exp_series sleep_exact 0 _ _ 1
            (NewReader 0 [x00; x01; x02] 10 0) 3 0 _ _ _ _ _).
  - split; [lia | reflexivity].
  - intros T d. unfold sleep_exact. lia.
  - apply New_ready; [split; [lia | reflexivity] | unfold maxInt64; lia].
  - reflexivity.
  - lia.
  - vm_compute. discriminate.
  - lia.
Defined.
